(** * Temperature dashboard: the data pipeline of [dashboard.py]

    The script loads a wide table (one row per country and indicator, one
    column per year), melts it to long format, coerces the year labels and the
    cells to numbers, filters the rows with four sidebar controls, prints five
    statistics and aggregates the rows by region and year.

    The embedding follows the script top to bottom.  A pandas column is a list,
    a boolean-mask selection is [filter], and a float64 value is either the
    rational it denotes or NaN (rounding and infinities are outside the model).
    Column labels are read as ASCII text; the theorems that say which number
    a year is are stated for such labels, with digit runs that float64 holds
    exactly.
    What the script takes from libraries and cannot be read in its source is a
    variable of the section: the text-to-float conversion of [pd.to_numeric],
    the square root used by [Series.std] and the printing of a finite float. *)

From Stdlib Require Import List String Ascii Bool Arith ZArith QArith Qreduction Qround DecimalString DecimalNat Permutation Sorted Lia.
Import ListNotations.

Set Implicit Arguments.

(** ** float64 values as the script sees them *)

Inductive float : Type :=
| Num (q : Q)
| NaN.

(** [pd.isna] on a scalar. *)
Definition isna (x : float) : bool :=
  match x with
  | NaN => true
  | Num _ => false
  end.

(** [a <= b]: false as soon as one side is NaN. *)
Definition fle (a b : float) : bool :=
  match a, b with
  | Num x, Num y => Qle_bool x y
  | _, _ => false
  end.

(** [a >= b]. *)
Definition fge (a b : float) : bool := fle b a.

(** [a < b]. *)
Definition flt (a b : float) : bool :=
  match a, b with
  | Num x, Num y => negb (Qle_bool y x)
  | _, _ => false
  end.

Definition of_int (n : Z) : float := Num (inject_Z n).

(** ** The wide table returned by [pd.read_csv] *)

(** The ten identifier columns named in [id_vars]. *)
Record id_fields : Type := mk_ids {
  ObjectId : Z;
  Country : string;
  ISO2 : string;
  ISO3 : string;
  Indicator : string;
  Unit : string;
  Source : string;
  CTS_Code : string;
  CTS_Name : string;
  CTS_Full_Descriptor : string
}.

(** A cell of a value column: a float when [read_csv] could parse the whole
    column (an empty cell is NaN), the text itself otherwise. *)
Inductive cell : Type :=
| CFloat (f : float)
| CStr (s : string).

(** The frame is columnar: the identifier columns row by row, and every other
    column with its label. *)
Record data_frame : Type := mk_frame {
  id_rows : list id_fields;
  value_columns : list (string * list cell)
}.

(** Every column of a frame has one cell per row. *)
Definition well_formed (df : data_frame) : Prop :=
  Forall (fun c => List.length (snd c) = List.length (id_rows df)) (value_columns df).

(** ** [pd.melt] *)

(** A row of the melted frame before the two conversions: the identifiers, the
    label of the value column (column [Year]) and its cell (column
    [Temperature Change]). *)
Record melted_row : Type := mk_melted {
  m_ids : id_fields;
  m_var : string;
  m_value : cell
}.

Definition melt_column (ids : list id_fields) (c : string * list cell) : list melted_row :=
  map (fun p => mk_melted (fst p) (fst c) (snd p)) (combine ids (snd c)).

(** The value columns are stacked one after the other, the identifier rows
    repeated under each. *)
Definition melt (df : data_frame) : list melted_row :=
  flat_map (melt_column (id_rows df)) (value_columns df).

(** ** [.str.extract('(\d+)').astype(float)] *)

(** [\d] on a character of an ASCII label: the ten digits 0 to 9.  On other
    text Python's [\d] also matches the decimal digits of other scripts, which
    this test does not follow; the theorems that say which number a year is
    are stated for [plain_label]s, defined below. *)
Definition is_digit (c : ascii) : bool :=
  (48 <=? nat_of_ascii c)%nat && (nat_of_ascii c <=? 57)%nat.

(** The longest prefix of digits. *)
Fixpoint take_digits (s : string) : string :=
  match s with
  | EmptyString => EmptyString
  | String c r => if is_digit c then String c (take_digits r) else EmptyString
  end.

(** The first match of [\d+]: the search moves right to the first digit and the
    greedy [+] takes every digit that follows; no digit, no match. *)
Fixpoint extract_digits (s : string) : option string :=
  match s with
  | EmptyString => None
  | String c r => if is_digit c then Some (String c (take_digits r)) else extract_digits r
  end.

Definition digit_value (c : ascii) : Z := Z.of_nat (nat_of_ascii c) - 48.

Fixpoint int_of_digits_from (acc : Z) (s : string) : Z :=
  match s with
  | EmptyString => acc
  | String c r => int_of_digits_from (10 * acc + digit_value c) r
  end.

(** The decimal value of a run of digits. *)
Definition int_of_digits (s : string) : Z := int_of_digits_from 0 s.

(** [astype(float)] on the extracted column: a missing match stays NaN, and
    a run of digits becomes the number it writes.  float64 holds every whole
    number up to 2^53 exactly; a longer run would be rounded, which this does
    not follow (see [plain_label]). *)
Definition astype_float (x : option string) : float :=
  match x with
  | Some ds => of_int (int_of_digits ds)
  | None => NaN
  end.

Definition year_of_label (label : string) : float :=
  astype_float (extract_digits label).

(** Predicates on strings used to state what [extract_digits] finds. *)
Fixpoint all_chars (p : ascii -> bool) (s : string) : bool :=
  match s with
  | EmptyString => true
  | String c r => p c && all_chars p r
  end.

Definition no_digit (s : string) : bool := all_chars (fun c => negb (is_digit c)) s.
Definition all_digits (s : string) : bool := all_chars is_digit s.

Definition starts_with_digit (s : string) : bool :=
  match s with
  | EmptyString => false
  | String c _ => is_digit c
  end.

(** [ds] is the first maximal run of digits of [label]. *)
Definition first_digit_run (label ds : string) : Prop :=
  exists pre post,
    label = (pre ++ ds ++ post)%string /\
    no_digit pre = true /\
    ds <> EmptyString /\ all_digits ds = true /\
    starts_with_digit post = false.

(** The labels on which the definitions above are what Python computes: ASCII
    text (so that [\d] is 0 to 9), with a first run of digits that writes a
    number float64 holds exactly. *)
Definition ascii_only (s : string) : bool :=
  all_chars (fun c => (nat_of_ascii c <? 128)%nat) s.

Definition exact_in_float64 (n : Z) : bool := (n <=? 2 ^ 53)%Z.

Definition plain_label (label : string) : bool :=
  ascii_only label &&
  match extract_digits label with
  | Some ds => exact_in_float64 (int_of_digits ds)
  | None => true
  end.

Definition plain_labels (df : data_frame) : Prop :=
  Forall (fun c => plain_label (fst c) = true) (value_columns df).

(** ** Observations *)

(** A row of [melted_data] once both columns are numeric. *)
Record observation : Type := mk_obs {
  ids : id_fields;
  Year : float;
  Temperature_Change : float
}.

(** ** The sidebar controls *)

Inductive level : Type := LCountry | LRegion | LContinent.

(** What the widgets return on one run of the script: the years of the two
    dates, the multiselect's list, the selectbox's indicator, the slider's pair
    and the aggregation level. *)
Record controls : Type := mk_controls {
  date_range : Z * Z;
  selected_countries : list string;
  selected_indicator : string;
  temperature_range : float * float;
  aggregation_level : level
}.

Definition set_level (l : level) (c : controls) : controls :=
  mk_controls (date_range c) (selected_countries c) (selected_indicator c)
              (temperature_range c) l.

(** The four selections of [filtered_data], named so that they can be applied
    in any order. *)
Inductive filter_step : Type := ByDate | ByCountry | ByIndicator | ByTemperature.

(** ** Stand-ins for the three library functions

    The theorems hold for any text-to-float conversion, square root and float
    printer.  These simple ones let the pipeline run on concrete tables. *)

Module Sample.

(** The text before the first dot and, when there is a dot, the text after it. *)
Fixpoint split_at_dot (s : string) : string * option string :=
  match s with
  | EmptyString => (EmptyString, None)
  | String c r =>
      if Ascii.eqb c "."%char then (EmptyString, Some r)
      else let p := split_at_dot r in (String c (fst p), snd p)
  end.

Definition strip_sign (s : string) : bool * string :=
  match s with
  | String c r =>
      if Ascii.eqb c "-"%char then (true, r)
      else if Ascii.eqb c "+"%char then (false, r)
      else (false, s)
  | EmptyString => (false, s)
  end.

(** Plain decimal literals: an optional sign, digits, an optional dot and more
    digits, with a digit somewhere. *)
Definition parse (s : string) : option float :=
  let sb := strip_sign s in
  let p := split_at_dot (snd sb) in
  let frac := match snd p with Some f => f | None => EmptyString end in
  let digits := (fst p ++ frac)%string in
  if all_digits digits && negb (String.eqb digits EmptyString) then
    let q := Qmake (int_of_digits digits) (Z.to_pos (10 ^ Z.of_nat (String.length frac))) in
    Some (Num (Qred (if fst sb then Qopp q else q)))
  else None.

(** The square root cut after six decimals. *)
Definition sqrt (q : Q) : Q :=
  Qred (Qmake (Z.sqrt (Qfloor (q * inject_Z (10 ^ 12)))) (Z.to_pos (10 ^ 6))).

(** A finite float printed as the fraction it denotes. *)
Definition repr (q : Q) : string :=
  (NilZero.string_of_int (Z.to_int (Qnum q)) ++ "/"
   ++ NilZero.string_of_uint (Pos.to_uint (Qden q)))%string.

(** A table in the shape of the data set: Albania and Algeria, the years 2020
    and 2021.  The column of 2020 was read as numbers; the column of 2021 has a
    cell that is not a number, so its cells are texts. *)
Definition record (code : Z) (country iso2 iso3 : string) : id_fields :=
  mk_ids code country iso2 iso3 "Temperature change" "Degree Celsius" "FAO"
         "ECCS" "Surface Temperature Change" "Environment, Climate Change".

Definition albania : id_fields := record 1 "Albania" "AL" "ALB".
Definition algeria : id_fields := record 2 "Algeria" "DZ" "DZA".
Definition andorra : id_fields := record 3 "Andorra, Principality of" "AD" "AND".

Definition frame : data_frame :=
  mk_frame [albania; algeria]
           [ ("F2020", [CFloat (Num 1); CFloat (Num 2)]);
             ("F2021", [CStr "unknown"; CStr "3.0"]) ]%string.

(** The same with a country that the region mapping does not know. *)
Definition frame_with_andorra : data_frame :=
  mk_frame [albania; algeria; andorra]
           [ ("F2020", [CFloat (Num 1); CFloat (Num 2); CFloat (Num (1 # 2))]);
             ("F2021", [CStr "unknown"; CStr "3.0"; CStr "0.7"]) ]%string.

(** A table with a column that is neither an identifier nor a year. *)
Definition frame_with_note : data_frame :=
  mk_frame [albania]
           [ ("F2020", [CFloat (Num 1)]);
             ("Note", [CStr "estimated"]) ]%string.

(** Both countries, both years, every temperature. *)
Definition choices : controls :=
  mk_controls (2020, 2021)%Z ["Albania"; "Algeria"]%string "Temperature change"
              (Num 1, Num 3) LRegion.

(** Albania in 2021 only: the one row left has no temperature. *)
Definition albania_2021 : controls :=
  mk_controls (2021, 2021)%Z ["Albania"]%string "Temperature change"
              (Num 0, Num 1) LRegion.

End Sample.

Section Dashboard.

(** [pd.to_numeric] on one text: the float it reads ([Some NaN] for a text that
    spells NaN), [None] when the text is not a number. *)
Variable parse_float : string -> option float.

(** [Series.std] takes the square root of the variance. *)
Variable fsqrt : Q -> Q.

(** How an f-string prints a finite float. *)
Variable float_repr : Q -> string.

(** [pd.to_numeric(..., errors='coerce')] on one cell. *)
Definition to_numeric_coerce (c : cell) : float :=
  match c with
  | CFloat f => f
  | CStr s =>
      match parse_float s with
      | Some f => f
      | None => NaN
      end
  end.

(** [pd.to_numeric(series)] with the default [errors='raise']: [None] stands
    for the exception raised at the first text that is not a number. *)
Fixpoint to_numeric (series : list cell) : option (list float) :=
  match series with
  | [] => Some []
  | c :: rest =>
      match c with
      | CFloat f => option_map (cons f) (to_numeric rest)
      | CStr s =>
          match parse_float s with
          | Some f => option_map (cons f) (to_numeric rest)
          | None => None
          end
      end
  end.

Definition convert_row (r : melted_row) : observation :=
  mk_obs (m_ids r) (year_of_label (m_var r)) (to_numeric_coerce (m_value r)).

(** [melted_data] after lines 21 to 28. *)
Definition melted_data (df : data_frame) : list observation :=
  map convert_row (melt df).

(** ** Filters (lines 36 to 47 and 81) *)

Definition view : Type := list observation.

(** [(Year >= start) & (Year <= end)]. *)
Definition filter_date (range : Z * Z) (v : view) : view :=
  filter (fun o => fge (Year o) (of_int (fst range)) && fle (Year o) (of_int (snd range))) v.

(** [Series.isin]. *)
Definition isin (x : string) (values : list string) : bool :=
  existsb (String.eqb x) values.

Definition filter_country (selected : list string) (v : view) : view :=
  filter (fun o => isin (Country (ids o)) selected) v.

Definition filter_indicator (indicator : string) (v : view) : view :=
  filter (fun o => String.eqb (Indicator (ids o)) indicator) v.

(** [(T >= lo) & (T <= hi)]: a NaN temperature fails both comparisons. *)
Definition filter_temperature (range : float * float) (v : view) : view :=
  filter (fun o => fge (Temperature_Change o) (fst range)
                   && fle (Temperature_Change o) (snd range)) v.

(** [filtered_data] when the slider is reached (after line 47). *)
Definition filtered_before_slider (c : controls) (md : view) : view :=
  filter_indicator (selected_indicator c)
    (filter_country (selected_countries c)
      (filter_date (date_range c) md)).

(** [filtered_data] after line 81. *)
Definition filtered_data (c : controls) (md : view) : view :=
  filter_temperature (temperature_range c) (filtered_before_slider c md).

Definition apply_step (c : controls) (s : filter_step) (v : view) : view :=
  match s with
  | ByDate => filter_date (date_range c) v
  | ByCountry => filter_country (selected_countries c) v
  | ByIndicator => filter_indicator (selected_indicator c) v
  | ByTemperature => filter_temperature (temperature_range c) v
  end.

Definition apply_steps (c : controls) (steps : list filter_step) (v : view) : view :=
  fold_left (fun acc s => apply_step c s acc) steps v.

Definition script_order : list filter_step :=
  [ByDate; ByCountry; ByIndicator; ByTemperature].

(** ** Column statistics, all with pandas' default [skipna=True] *)

Fixpoint dropna (col : list float) : list Q :=
  match col with
  | [] => []
  | Num q :: rest => q :: dropna rest
  | NaN :: rest => dropna rest
  end.

Definition qsum (xs : list Q) : Q := fold_left Qplus xs 0.

Definition qcount (xs : list Q) : Q := inject_Z (Z.of_nat (List.length xs)).

Definition series_mean (col : list float) : float :=
  match dropna col with
  | [] => NaN
  | xs => Num (Qred (qsum xs / qcount xs))
  end.

Fixpoint insert_sorted (x : Q) (l : list Q) : list Q :=
  match l with
  | [] => [x]
  | y :: rest => if Qle_bool x y then x :: l else y :: insert_sorted x rest
  end.

Definition sort_values (xs : list Q) : list Q := fold_right insert_sorted [] xs.

Definition series_median (col : list float) : float :=
  let xs := sort_values (dropna col) in
  let n := List.length xs in
  match n with
  | O => NaN
  | S _ =>
      if Nat.even n
      then Num (Qred ((nth (n / 2 - 1) xs 0 + nth (n / 2) xs 0) / 2))
      else Num (nth (n / 2) xs 0)
  end.

(** The sample variance ([ddof=1]); undefined below two values. *)
Definition variance (xs : list Q) : Q :=
  let m := qsum xs / qcount xs in
  qsum (map (fun x => (x - m) * (x - m)) xs) / (qcount xs - 1).

Definition series_std (col : list float) : float :=
  match dropna col with
  | [] => NaN
  | [_] => NaN
  | xs => Num (fsqrt (Qred (variance xs)))
  end.

Definition series_max (col : list float) : float :=
  match dropna col with
  | [] => NaN
  | x :: rest => Num (fold_left (fun m y => if Qle_bool m y then y else m) rest x)
  end.

Definition series_min (col : list float) : float :=
  match dropna col with
  | [] => NaN
  | x :: rest => Num (fold_left (fun m y => if Qle_bool y m then y else m) rest x)
  end.

(** ** The slider's initial range (lines 67 to 76)

    The slider is Streamlit's widget: the pair it gives back is the
    [temperature_range] of the controls. *)

Definition temperature_min (v : view) : float := series_min (map Temperature_Change v).
Definition temperature_max (v : view) : float := series_max (map Temperature_Change v).

(** [sorted] on a pair. *)
Definition sorted_pair (p : float * float) : float * float :=
  if flt (snd p) (fst p) then (snd p, fst p) else p.

Definition initial_temperature_range (v : view) : float * float :=
  let r := (temperature_min v, temperature_max v) in
  sorted_pair (if isna (fst r) || isna (snd r) then (Num 0, Num 1) else r).

(** ** The sidebar texts (lines 89 to 94) *)

Definition format_float (x : float) : string :=
  match x with
  | NaN => "nan"%string
  | Num q => float_repr q
  end.

Definition stat_line (caption : string) (x : float) : string :=
  (caption ++ ": " ++ format_float x)%string.

Definition statistical_measures (v : view) : list string :=
  let col := map Temperature_Change v in
  [ stat_line "Mean Temperature Change" (series_mean col);
    stat_line "Median Temperature Change" (series_median col);
    stat_line "Standard Deviation" (series_std col);
    stat_line "Max Temperature Change" (series_max col);
    stat_line "Min Temperature Change" (series_min col) ].

(** ** Aggregation (lines 104 to 126) *)

Definition actual_region_mapping : list (string * string) :=
  [ ("Afghanistan, Islamic Rep. of", "Asia");
    ("Albania", "Europe");
    ("Algeria", "Africa") ]%string.

Fixpoint dict_get (k : string) (d : list (string * string)) : option string :=
  match d with
  | [] => None
  | (k', v) :: rest => if String.eqb k k' then Some v else dict_get k rest
  end.

(** [filtered_data['Aggregated'] = filtered_data['Country'].map(...)]: a
    country that is not a key gets a missing label. *)
Definition add_aggregated (v : view) : list (observation * option string) :=
  map (fun o => (o, dict_get (Country (ids o)) actual_region_mapping)) v.

(** The key of a row for [groupby(['Aggregated', 'Year'])]; a row with a
    missing component has none and is left out of every group. *)
Definition group_key (r : observation * option string) : option (string * Q) :=
  match snd r, Year (fst r) with
  | Some g, Num y => Some (g, y)
  | _, _ => None
  end.

Definition key_compare (a b : string * Q) : comparison :=
  match String.compare (fst a) (fst b) with
  | Eq => Qcompare (snd a) (snd b)
  | other => other
  end.

Definition key_eqb (a b : string * Q) : bool :=
  match key_compare a b with
  | Eq => true
  | _ => false
  end.

(** The keys are kept sorted and without repeats. *)
Fixpoint insert_key (k : string * Q) (ks : list (string * Q)) : list (string * Q) :=
  match ks with
  | [] => [k]
  | k' :: rest =>
      match key_compare k k' with
      | Lt => k :: ks
      | Eq => ks
      | Gt => k' :: insert_key k rest
      end
  end.

Definition group_keys (rows : list (observation * option string)) : list (string * Q) :=
  fold_right (fun r ks => match group_key r with
                          | Some k => insert_key k ks
                          | None => ks
                          end) [] rows.

Definition in_group (k : string * Q) (r : observation * option string) : bool :=
  match group_key r with
  | Some k' => key_eqb k k'
  | None => false
  end.

(** The [Temperature Change] series of one group. *)
Definition group_values (k : string * Q) (rows : list (observation * option string)) : list float :=
  map (fun r => Temperature_Change (fst r)) (filter (in_group k) rows).

(** [custom_mean]: the outer [None] is Python's [None], returned when
    [pd.to_numeric] raised. *)
Definition custom_mean (series : list cell) : option float :=
  match to_numeric series with
  | Some col => Some (series_mean col)
  | None => None
  end.

(** A row of [aggregated_data] after [reset_index]. *)
Record aggregated_observation : Type := mk_agg {
  Aggregated : string;
  agg_Year : Q;
  agg_Temperature_Change : option float
}.

Definition aggregate_rows (rows : list (observation * option string)) : list aggregated_observation :=
  map (fun k => mk_agg (fst k) (snd k) (custom_mean (map CFloat (group_values k rows))))
      (group_keys rows).

Definition aggregated_data (v : view) : list aggregated_observation :=
  aggregate_rows (add_aggregated v).

Definition level_name (l : level) : string :=
  match l with
  | LCountry => "Country"
  | LRegion => "Region"
  | LContinent => "Continent"
  end.

(** ** One run of the script *)

(** What the page shows that depends on the data: the table of line 144, the
    five sidebar texts, the aggregated table and the title of its chart. *)
Record page : Type := mk_page {
  shown_data : view;
  shown_statistics : list string;
  shown_aggregated : list aggregated_observation;
  aggregated_title : string
}.

Definition dashboard (c : controls) (df : data_frame) : page :=
  let v := filtered_data c (melted_data df) in
  mk_page v
          (statistical_measures v)
          (aggregated_data v)
          ("Aggregated Temperature Change Over Time by " ++ level_name (aggregation_level c))%string.

(** ** The options and defaults of the sidebar (lines 31 to 46) *)

(** [Series.unique]: the distinct values, in the order of their first
    appearance. *)
Fixpoint unique (A : Type) (same : A -> A -> bool) (l : list A) : list A :=
  match l with
  | [] => []
  | x :: rest => x :: filter (fun y => negb (same x y)) (unique same rest)
  end.

(** For [unique], NaN is one value like another. *)
Definition float_same (a b : float) : bool :=
  match a, b with
  | Num x, Num y => Qeq_bool x y
  | NaN, NaN => true
  | _, _ => false
  end.

Definition years (md : view) : list float := unique float_same (map Year md).

(** Python's built-in [min] and [max] on a sequence: the first item is kept
    until a later one compares strictly below (above) it, so a NaN in first
    position stays and a later NaN is passed over; [None] stands for the
    [ValueError] on an empty sequence. *)
Definition py_min (l : list float) : option float :=
  match l with
  | [] => None
  | x :: rest => Some (fold_left (fun m y => if flt y m then y else m) rest x)
  end.

Definition py_max (l : list float) : option float :=
  match l with
  | [] => None
  | x :: rest => Some (fold_left (fun m y => if flt m y then y else m) rest x)
  end.

(** [int(x)]: truncation towards zero, a [ValueError] on NaN. *)
Definition py_int (x : float) : option Z :=
  match x with
  | Num q => Some (Z.quot (Qnum q) (Zpos (Qden q)))
  | NaN => None
  end.

(** [datetime.date(y, m, d).year] for a valid month and day: the year must lie
    between [MINYEAR] and [MAXYEAR]. *)
Definition date_year (y : Z) : option Z :=
  if ((1 <=? y) && (y <=? 9999))%Z then Some y else None.

Definition year_bound (pick : list float -> option float) (md : view) : option Z :=
  match pick (years md) with
  | Some x =>
      match py_int x with
      | Some y => date_year y
      | None => None
      end
  | None => None
  end.

(** The years of [default_start_date] and [default_end_date]; [None] when line
    32 or 33 raises. *)
Definition default_date_range (md : view) : option (Z * Z) :=
  match year_bound py_min md, year_bound py_max md with
  | Some start, Some stop => Some (start, stop)
  | _, _ => None
  end.

(** The options of the two selection widgets. *)
Definition country_options (md : view) : list string :=
  unique String.eqb (map (fun o => Country (ids o)) md).

Definition indicator_options (md : view) : list string :=
  unique String.eqb (map (fun o => Indicator (ids o)) md).

(** ** Vocabulary of the properties *)

(** The test that a selection applies to one row. *)
Definition step_pred (c : controls) (s : filter_step) (o : observation) : bool :=
  match s with
  | ByDate => fge (Year o) (of_int (fst (date_range c)))
              && fle (Year o) (of_int (snd (date_range c)))
  | ByCountry => isin (Country (ids o)) (selected_countries c)
  | ByIndicator => String.eqb (Indicator (ids o)) (selected_indicator c)
  | ByTemperature => fge (Temperature_Change o) (fst (temperature_range c))
                     && fle (Temperature_Change o) (snd (temperature_range c))
  end.

(** A statistic leaves the value [x] out when inserting [x] anywhere in a
    column does not change the result. *)
Definition excluded_by (R : Type) (stat : list float -> R) (x : float) : Prop :=
  forall before after, stat (before ++ x :: after) = stat (before ++ after).

(** A view in which no row has a temperature. *)
Definition all_missing (v : view) : Prop :=
  Forall (fun o => isna (Temperature_Change o) = true) v.

(** A cell that carries no number: a missing float, a text that is not a
    number, or a text that spells NaN. *)
Definition missing_or_non_numeric (c : cell) : Prop :=
  match c with
  | CFloat f => isna f = true
  | CStr s => parse_float s = None \/ parse_float s = Some NaN
  end.

(** What a reducer gives back when there is nothing to average: Python's
    [None] or NaN. *)
Definition no_value (r : option float) : Prop := r = None \/ r = Some NaN.

(** The rows whose country is a key of the region mapping. *)
Definition is_mapped (o : observation) : bool :=
  match dict_get (Country (ids o)) actual_region_mapping with
  | Some _ => true
  | None => false
  end.

(** * Properties *)

(** ** Filtering *)

Lemma apply_step_filter (c : controls) (s : filter_step) (v : view) :
  apply_step c s v = filter (step_pred c s) v.
Proof. destruct s; reflexivity. Qed.

Lemma filter_filter (A : Type) (p q : A -> bool) (l : list A) :
  filter p (filter q l) = filter (fun x => q x && p x) l.
Proof.
  induction l as [|x l IH]; simpl; [reflexivity|].
  destruct (q x); simpl; [destruct (p x)|]; rewrite IH; reflexivity.
Qed.

Lemma apply_steps_filter (c : controls) (steps : list filter_step) (v : view) :
  apply_steps c steps v = filter (fun o => forallb (fun s => step_pred c s o) steps) v.
Proof.
  unfold apply_steps. revert v.
  induction steps as [|s steps IH]; intros v; simpl.
  - induction v as [|o v IHv]; simpl; congruence.
  - rewrite IH, apply_step_filter, filter_filter. reflexivity.
Qed.

Lemma forallb_Permutation (A : Type) (f : A -> bool) (l l' : list A) :
  Permutation l l' -> forallb f l = forallb f l'.
Proof.
  induction 1 as [|x l l' _ IH|x y l|l l' l'' _ IH1 _ IH2]; simpl.
  - reflexivity.
  - now rewrite IH.
  - destruct (f x), (f y); reflexivity.
  - congruence.
Qed.

(** C1. Whatever the four controls are, applying the date, country, indicator
    and temperature selections in any order keeps exactly the rows that the
    script keeps with its own order, and in the same sequence. *)
Theorem filters_commute (c : controls) (steps : list filter_step) (md : view) :
  Permutation steps script_order ->
  apply_steps c steps md = filtered_data c md.
Proof.
  intros Hperm.
  assert (Hscript : filtered_data c md = apply_steps c script_order md) by reflexivity.
  rewrite Hscript, !apply_steps_filter.
  apply filter_ext. intros o.
  now apply forallb_Permutation.
Qed.

Lemma filter_country_nil (v : view) : filter_country [] v = [].
Proof.
  unfold filter_country.
  induction v as [|o v IH]; simpl; [reflexivity | exact IH].
Qed.

(** C3. With no country selected the country selection keeps no row of any
    view, and so the filtered data of the script is empty whatever the other
    controls are. *)
Theorem empty_selection_matches_nothing :
  (forall v : view, List.length (filter_country [] v) = 0%nat) /\
  (forall range indicator temperatures lvl (md : view),
      filtered_data (mk_controls range [] indicator temperatures lvl) md = []).
Proof.
  split.
  - intros v. now rewrite filter_country_nil.
  - intros range indicator temperatures lvl md.
    unfold filtered_data, filtered_before_slider; simpl.
    now rewrite filter_country_nil.
Qed.

(** ** Reshaping *)

Lemma melt_column_length (rows : list id_fields) (c : string * list cell) :
  List.length (snd c) = List.length rows ->
  List.length (melt_column rows c) = List.length rows.
Proof.
  intros H. unfold melt_column.
  rewrite length_map, length_combine, H. apply Nat.min_id.
Qed.

Lemma melt_length (rows : list id_fields) (cols : list (string * list cell)) :
  Forall (fun c => List.length (snd c) = List.length rows) cols ->
  List.length (flat_map (melt_column rows) cols)
  = (List.length rows * List.length cols)%nat.
Proof.
  induction 1 as [|c cols Hc _ IH]; simpl.
  - now rewrite Nat.mul_0_r.
  - rewrite length_app, IH, melt_column_length by exact Hc. lia.
Qed.

(** C2. On a frame whose columns all have one cell per row, the melted data
    has as many rows as the frame has rows times value columns. *)
Theorem melted_row_count (df : data_frame) :
  well_formed df ->
  List.length (melted_data df)
  = (List.length (id_rows df) * List.length (value_columns df))%nat.
Proof.
  intros Hwf. unfold melted_data, melt.
  rewrite length_map. now apply melt_length.
Qed.

(** ** Missing values *)

Lemma dropna_app (a b : list float) : dropna (a ++ b) = dropna a ++ dropna b.
Proof.
  induction a as [|x a IH]; simpl; [reflexivity|].
  destruct x; simpl; now rewrite IH.
Qed.

Lemma dropna_skip (a b : list float) : dropna (a ++ NaN :: b) = dropna (a ++ b).
Proof. now rewrite !dropna_app. Qed.

Lemma dropna_all_missing (col : list float) :
  Forall (fun x => isna x = true) col -> dropna col = [].
Proof.
  induction 1 as [|x col Hx _ IH]; simpl; [reflexivity|].
  destruct x; [discriminate | exact IH].
Qed.

Lemma to_numeric_floats (col : list float) : to_numeric (map CFloat col) = Some col.
Proof.
  induction col as [|x col IH]; simpl; [reflexivity|].
  now rewrite IH.
Qed.

Lemma custom_mean_floats (col : list float) :
  custom_mean (map CFloat col) = Some (series_mean col).
Proof. unfold custom_mean. now rewrite to_numeric_floats. Qed.

Lemma coerce_non_numeric (c : cell) :
  missing_or_non_numeric c -> to_numeric_coerce c = NaN.
Proof.
  destruct c as [f|s]; simpl.
  - destruct f; [discriminate | reflexivity].
  - intros [-> | ->]; reflexivity.
Qed.

(** C4. A cell that is not a valid number (a text that does not parse, a text
    that spells NaN, or an empty cell) becomes a missing temperature in its
    observation: the coercing conversion is a total function, so nothing is
    raised.  The mean, median, standard deviation, maximum, minimum and
    [custom_mean] of a column are what they are without that entry. *)
Theorem non_numeric_cell_is_missing_and_excluded (c : cell) :
  missing_or_non_numeric c ->
  to_numeric_coerce c = NaN /\
  (forall r : melted_row,
      m_value r = c -> Temperature_Change (convert_row r) = NaN) /\
  excluded_by series_mean (to_numeric_coerce c) /\
  excluded_by series_median (to_numeric_coerce c) /\
  excluded_by series_std (to_numeric_coerce c) /\
  excluded_by series_max (to_numeric_coerce c) /\
  excluded_by series_min (to_numeric_coerce c) /\
  excluded_by (fun col => custom_mean (map CFloat col)) (to_numeric_coerce c).
Proof.
  intros Hc. rewrite (coerce_non_numeric c Hc).
  split; [reflexivity|]. split.
  - intros r Hr. unfold convert_row; simpl. rewrite Hr. now apply coerce_non_numeric.
  - repeat split; intros before after;
      rewrite ?custom_mean_floats;
      unfold series_mean, series_median, series_std, series_max, series_min;
      now rewrite dropna_skip.
Qed.

(** Leaving a value out is not the same as counting it as zero. *)
Example missing_is_not_zero :
  series_mean [Num 1; NaN; Num 3] = Num 2 /\
  series_mean [Num 1; Num 0; Num 3] = Num (4 # 3).
Proof. split; reflexivity. Qed.

Lemma all_missing_column (v : view) :
  all_missing v -> dropna (map Temperature_Change v) = [].
Proof.
  intros H. apply dropna_all_missing.
  apply Forall_map. exact H.
Qed.

Lemma fge_nan (b : float) : fge NaN b = false.
Proof. now destruct b. Qed.

Lemma filter_temperature_all_missing (range : float * float) (v : view) :
  all_missing v -> filter_temperature range v = [].
Proof.
  unfold filter_temperature.
  induction 1 as [|o v Ho _ IH]; simpl; [reflexivity|].
  destruct (Temperature_Change o); [discriminate|].
  rewrite fge_nan. simpl. exact IH.
Qed.

(** C6. When no row of the view reaching the slider has a temperature, the
    initial range is [(0.0, 1.0)], and the temperature selection that follows
    returns the empty view for any range the slider gives back. *)
Theorem default_temperature_range (v : view) :
  all_missing v ->
  initial_temperature_range v = (Num 0, Num 1) /\
  forall range, filter_temperature range v = [].
Proof.
  intros H. split.
  - unfold initial_temperature_range, temperature_min, temperature_max,
      series_min, series_max.
    rewrite (all_missing_column H). reflexivity.
  - intros range. now apply filter_temperature_all_missing.
Qed.

(** C7, as the script has it. When the view has no temperature left (no row,
    or missing values only), each of the five statistics is NaN and the sidebar
    prints it as the text [nan]; none of them is shown as zero or any other
    number. *)
Theorem statistics_without_values_print_nan (v : view) :
  all_missing v ->
  (series_mean (map Temperature_Change v) = NaN /\
   series_median (map Temperature_Change v) = NaN /\
   series_std (map Temperature_Change v) = NaN /\
   series_max (map Temperature_Change v) = NaN /\
   series_min (map Temperature_Change v) = NaN) /\
  statistical_measures v =
    [ "Mean Temperature Change: nan";
      "Median Temperature Change: nan";
      "Standard Deviation: nan";
      "Max Temperature Change: nan";
      "Min Temperature Change: nan" ]%string.
Proof.
  intros H.
  assert (Hstats :
    series_mean (map Temperature_Change v) = NaN /\
    series_median (map Temperature_Change v) = NaN /\
    series_std (map Temperature_Change v) = NaN /\
    series_max (map Temperature_Change v) = NaN /\
    series_min (map Temperature_Change v) = NaN).
  { unfold series_mean, series_median, series_std, series_max, series_min.
    rewrite (all_missing_column H). repeat split. }
  split; [exact Hstats|].
  destruct Hstats as (Hmean & Hmedian & Hstd & Hmax & Hmin).
  unfold statistical_measures.
  rewrite Hmean, Hmedian, Hstd, Hmax, Hmin. reflexivity.
Qed.

(** ** Year labels *)

Lemma extract_digits_none (s : string) :
  extract_digits s = None <-> no_digit s = true.
Proof.
  unfold no_digit.
  induction s as [|c r IH]; simpl.
  - tauto.
  - destruct (is_digit c); simpl.
    + split; discriminate.
    + exact IH.
Qed.

Lemma take_digits_split (r : string) :
  exists post,
    r = (take_digits r ++ post)%string /\
    all_digits (take_digits r) = true /\
    starts_with_digit post = false.
Proof.
  unfold all_digits.
  induction r as [|c r (post & Hr & Hall & Hpost)]; simpl.
  - exists EmptyString. auto.
  - destruct (is_digit c) eqn:Hc; simpl.
    + exists post. rewrite Hc, Hall. split; [now rewrite <- Hr | auto].
    + exists (String c r). simpl. auto.
Qed.

Lemma take_digits_run (ds post : string) :
  all_digits ds = true -> starts_with_digit post = false ->
  take_digits (ds ++ post) = ds.
Proof.
  unfold all_digits. intros Hds Hpost.
  induction ds as [|c ds IH]; simpl in *.
  - destruct post as [|c post]; simpl in *; [reflexivity | now rewrite Hpost].
  - apply andb_prop in Hds as [Hc Hds]. rewrite Hc. now rewrite IH.
Qed.

Lemma extract_digits_run (label ds : string) :
  extract_digits label = Some ds <-> first_digit_run label ds.
Proof.
  unfold first_digit_run, no_digit, all_digits. split.
  - revert ds. induction label as [|c r IH]; simpl; intros ds H; [discriminate|].
    destruct (is_digit c) eqn:Hc.
    + injection H as <-.
      destruct (take_digits_split r) as (post & Hr & Hall & Hpost).
      exists EmptyString, post. simpl. rewrite Hc.
      repeat split; try assumption; [now rewrite <- Hr | discriminate].
    + destruct (IH ds H) as (pre & post & Hr & Hpre & Hne & Hall & Hpost).
      exists (String c pre), post. simpl. rewrite Hc, Hr.
      repeat split; assumption.
  - intros (pre & post & -> & Hpre & Hne & Hall & Hpost).
    induction pre as [|c pre IH]; simpl in *.
    + destruct ds as [|d ds]; [now elim Hne|]. simpl in *.
      apply andb_prop in Hall as [Hd Hall]. rewrite Hd.
      now rewrite take_digits_run.
    + apply andb_prop in Hpre as [Hc Hpre].
      apply negb_true_iff in Hc. rewrite Hc. now apply IH.
Qed.

(** What line 25 makes of one column label. *)
Lemma year_of_label_cases (label : string) (y : float) :
  y = year_of_label label <->
  (exists ds, first_digit_run label ds /\ y = of_int (int_of_digits ds)) \/
  (no_digit label = true /\ y = NaN).
Proof.
  unfold year_of_label. split.
  - intros ->. destruct (extract_digits label) as [ds|] eqn:H.
    + left. exists ds. split; [now apply extract_digits_run | reflexivity].
    + right. split; [now apply extract_digits_none | reflexivity].
  - intros [(ds & Hrun & ->) | (Hnone & ->)].
    + apply extract_digits_run in Hrun. now rewrite Hrun.
    + apply extract_digits_none in Hnone. now rewrite Hnone.
Qed.

Lemma in_melt (df : data_frame) (r : melted_row) :
  In r (melt df) <->
  exists label cells p,
    In (label, cells) (value_columns df) /\
    In p (combine (id_rows df) cells) /\
    r = mk_melted (fst p) label (snd p).
Proof.
  unfold melt, melt_column. rewrite in_flat_map. split.
  - intros ([label cells] & Hcol & Hin).
    apply in_map_iff in Hin as (p & <- & Hp).
    now exists label, cells, p.
  - intros (label & cells & p & Hcol & Hp & ->).
    exists (label, cells). split; [assumption|].
    apply in_map_iff. now exists p.
Qed.

(** C5, as the script has it. On a table whose value-column labels are ASCII
    and whose digit runs write numbers of at most 2^53, the observations of
    the melted data are exactly these: one for every value column and every
    row, with the row's identifiers and coerced cell, and with a year that is
    the integer written by the first maximal run of digits of the column
    label, or NaN when the label has no digit.  A column without digits is
    neither skipped nor rejected.  (Outside these labels Python reads the
    digits of other scripts and rounds long runs; nothing is stated there.) *)
Theorem year_of_every_observation (df : data_frame) (o : observation) :
  plain_labels df ->
  (In o (melted_data df) <->
   exists label cells p,
     In (label, cells) (value_columns df) /\
     plain_label label = true /\
     In p (combine (id_rows df) cells) /\
     ids o = fst p /\
     Temperature_Change o = to_numeric_coerce (snd p) /\
     ((exists ds, first_digit_run label ds /\
                  (int_of_digits ds <= 2 ^ 53)%Z /\
                  Year o = of_int (int_of_digits ds)) \/
      (no_digit label = true /\ Year o = NaN))).
Proof.
  intros Hplain.
  assert (Hlabel : forall label cells,
             In (label, cells) (value_columns df) -> plain_label label = true).
  { intros label cells Hin. unfold plain_labels in Hplain.
    rewrite Forall_forall in Hplain. exact (Hplain (label, cells) Hin). }
  assert (Hrun : forall label ds,
             plain_label label = true -> first_digit_run label ds ->
             (int_of_digits ds <= 2 ^ 53)%Z).
  { intros label ds Hl Hds. apply extract_digits_run in Hds.
    unfold plain_label in Hl. rewrite Hds in Hl.
    apply andb_true_iff in Hl as [_ Hl]. now apply Z.leb_le. }
  assert (Hcases : forall label y,
             plain_label label = true ->
             (y = year_of_label label <->
              (exists ds, first_digit_run label ds /\
                          (int_of_digits ds <= 2 ^ 53)%Z /\
                          y = of_int (int_of_digits ds)) \/
              (no_digit label = true /\ y = NaN))).
  { intros label y Hl. rewrite year_of_label_cases. split.
    - intros [(ds & Hds & Hy) | H]; [left | now right].
      exists ds. split; [assumption|]. split; [now apply (Hrun label)|assumption].
    - intros [(ds & Hds & _ & Hy) | H]; [left | now right].
      now exists ds. }
  unfold melted_data. rewrite in_map_iff. split.
  - intros (r & <- & Hr).
    apply in_melt in Hr as (label & cells & p & Hcol & Hp & ->).
    exists label, cells, p. unfold convert_row; simpl.
    split; [assumption|]. split; [now apply (Hlabel label cells)|].
    repeat split; try assumption.
    apply Hcases; [now apply (Hlabel label cells) | reflexivity].
  - intros (label & cells & p & Hcol & Hl & Hp & Hids & Htemp & Hyear).
    apply (Hcases label (Year o) Hl) in Hyear.
    exists (mk_melted (fst p) label (snd p)). split.
    + destruct o as [i y t]; simpl in *. unfold convert_row; simpl.
      now subst.
    + apply in_melt. now exists label, cells, p.
Qed.

(** ** Aggregation *)

#[local] Arguments dict_get : simpl never.

Lemma to_numeric_without_values (series : list cell) :
  Forall missing_or_non_numeric series ->
  to_numeric series = None \/
  exists col, to_numeric series = Some col /\ Forall (fun x => isna x = true) col.
Proof.
  induction 1 as [|c series Hc _ IH]; simpl.
  - right. exists []. auto.
  - destruct c as [f|s]; simpl in Hc.
    + destruct IH as [-> | (col & -> & Hcol)]; [now left|].
      right. exists (f :: col). auto.
    + destruct Hc as [-> | ->]; [now left|].
      destruct IH as [-> | (col & -> & Hcol)]; [now left|].
      right. exists (NaN :: col). auto.
Qed.

(** C8. On a series whose cells are all missing or not numbers, [custom_mean]
    returns no value: [None] when the conversion raised, NaN otherwise, and so
    never zero nor any other number; being a function, it raises nothing. *)
Theorem custom_mean_without_values (series : list cell) :
  Forall missing_or_non_numeric series ->
  no_value (custom_mean series).
Proof.
  intros H. unfold no_value, custom_mean.
  destruct (to_numeric_without_values H) as [-> | (col & -> & Hcol)].
  - now left.
  - right. unfold series_mean. now rewrite (dropna_all_missing Hcol).
Qed.

Lemma in_aggregate_rows (rows : list (observation * option string))
      (row : aggregated_observation) :
  In row (aggregate_rows rows) ->
  In (Aggregated row, agg_Year row) (group_keys rows) /\
  agg_Temperature_Change row
  = Some (series_mean (group_values (Aggregated row, agg_Year row) rows)).
Proof.
  unfold aggregate_rows. intros H.
  apply in_map_iff in H as ([g y] & <- & Hk). simpl.
  split; [assumption | apply custom_mean_floats].
Qed.

(** In the aggregated table, a group whose temperatures are all missing has a
    row, and its mean is NaN. *)
Lemma aggregated_bucket_without_values (v : view) (row : aggregated_observation) :
  In row (aggregated_data v) ->
  (forall r, In r (add_aggregated v) ->
             in_group (Aggregated row, agg_Year row) r = true ->
             isna (Temperature_Change (fst r)) = true) ->
  agg_Temperature_Change row = Some NaN.
Proof.
  intros Hrow Hall.
  apply in_aggregate_rows in Hrow as [_ ->]. f_equal.
  unfold series_mean. rewrite dropna_all_missing; [reflexivity|].
  unfold group_values. apply Forall_map, Forall_forall.
  intros r Hr. apply filter_In in Hr as [Hin Hgroup]. now apply Hall.
Qed.

(** C9 fails on the script. The aggregated table of a run does not depend on
    the aggregation level chosen in the sidebar: the level reaches the title of
    the chart and nothing else, and the one region mapping is used for all
    three levels. *)
Theorem aggregation_level_is_ignored (c : controls) (l : level) (df : data_frame) :
  shown_aggregated (dashboard (set_level l c) df) = shown_aggregated (dashboard c df).
Proof.
  unfold dashboard, set_level, filtered_data, filtered_before_slider; simpl.
  reflexivity.
Qed.

Lemma group_key_unmapped (o : observation) :
  is_mapped o = false ->
  group_key (o, dict_get (Country (ids o)) actual_region_mapping) = None.
Proof.
  unfold is_mapped, group_key. cbn [fst snd].
  now destruct (dict_get (Country (ids o)) actual_region_mapping).
Qed.

Lemma group_keys_mapped (v : view) :
  group_keys (add_aggregated (filter is_mapped v)) = group_keys (add_aggregated v).
Proof.
  induction v as [|o v IH]; simpl; [reflexivity|].
  destruct (is_mapped o) eqn:Ho; simpl.
  - now rewrite IH.
  - now rewrite (group_key_unmapped o Ho).
Qed.

Lemma group_values_mapped (k : string * Q) (v : view) :
  group_values k (add_aggregated (filter is_mapped v)) = group_values k (add_aggregated v).
Proof.
  unfold group_values.
  induction v as [|o v IH]; simpl; [reflexivity|].
  destruct (is_mapped o) eqn:Ho; simpl.
  - destruct (in_group k (o, dict_get (Country (ids o)) actual_region_mapping));
      simpl; now rewrite IH.
  - unfold in_group at 2. now rewrite (group_key_unmapped o Ho).
Qed.

Lemma in_insert_key (k k' : string * Q) (ks : list (string * Q)) :
  In k (insert_key k' ks) -> k = k' \/ In k ks.
Proof.
  induction ks as [|k0 ks IH]; simpl.
  - intros [<- | []]. now left.
  - destruct (key_compare k' k0); simpl.
    + intros H. now right.
    + intros [<- | H]; [now left | now right].
    + intros [<- | H]; [right; now left|].
      destruct (IH H) as [-> | Hin]; [now left | right; now right].
Qed.

Lemma in_group_keys (k : string * Q) (rows : list (observation * option string)) :
  In k (group_keys rows) -> exists r, In r rows /\ group_key r = Some k.
Proof.
  induction rows as [|r rows IH]; simpl; [intros []|].
  destruct (group_key r) as [k'|] eqn:Hr.
  - intros H. apply in_insert_key in H as [-> | H].
    + exists r. split; [now left | assumption].
    + destruct (IH H) as (r' & Hin & Hkey). exists r'. split; [now right | assumption].
  - intros H. destruct (IH H) as (r' & Hin & Hkey). exists r'. split; [now right | assumption].
Qed.

(** C10. A row whose country is not a key of the region mapping gets a missing
    label, which gives it no group; the aggregated table is the one computed
    without these rows; and every row of the aggregated table carries the
    region and the year of some row of the view whose country is mapped. *)
Theorem unmapped_countries_are_dropped (v : view) :
  (forall o, In o v ->
     dict_get (Country (ids o)) actual_region_mapping = None ->
     In (o, None) (add_aggregated v) /\ group_key (o, None) = None) /\
  aggregated_data v = aggregated_data (filter is_mapped v) /\
  (forall row, In row (aggregated_data v) ->
     exists o, In o v /\
       dict_get (Country (ids o)) actual_region_mapping = Some (Aggregated row) /\
       Year o = Num (agg_Year row)).
Proof.
  split; [|split].
  - intros o Hin Hnone. split; [|reflexivity].
    unfold add_aggregated. apply in_map_iff.
    exists o. split; [now f_equal | assumption].
  - unfold aggregated_data, aggregate_rows.
    rewrite group_keys_mapped. apply map_ext. intros k.
    now rewrite group_values_mapped.
  - intros row Hrow. unfold aggregated_data in Hrow.
    apply in_aggregate_rows in Hrow as [Hkey _].
    apply in_group_keys in Hkey as ([o g] & Hin & Hkey).
    unfold add_aggregated in Hin. apply in_map_iff in Hin as (o' & Heq & Hin).
    injection Heq as -> <-.
    unfold group_key in Hkey; simpl in Hkey.
    destruct (dict_get (Country (ids o)) actual_region_mapping) as [g|] eqn:Hmap;
      [|discriminate].
    destruct (Year o) as [y|] eqn:Hyear; [|discriminate].
    injection Hkey as Hg Hy. exists o. rewrite Hmap, Hyear, Hg, Hy. auto.
Qed.

(** * Further properties of the script *)

Unset Implicit Arguments.
Set Default Proof Using "Type".

(** ** What the filtered data contains *)

Lemma fle_inv (a b : float) :
  fle a b = true <-> exists x y, a = Num x /\ b = Num y /\ x <= y.
Proof.
  split.
  - destruct a as [x|], b as [y|]; simpl; try discriminate.
    intros H. exists x, y. now rewrite <- Qle_bool_iff.
  - intros (x & y & -> & -> & H). simpl. now apply Qle_bool_iff.
Qed.

Lemma isin_In (x : string) (values : list string) :
  isin x values = true <-> In x values.
Proof.
  unfold isin. rewrite existsb_exists. split.
  - intros (y & Hy & Heq). apply String.eqb_eq in Heq. now subst.
  - intros H. exists x. split; [assumption | apply String.eqb_refl].
Qed.

Lemma between_inv (x lo hi : float) :
  fge x lo && fle x hi = true <->
  exists t a b, x = Num t /\ lo = Num a /\ hi = Num b /\ a <= t <= b.
Proof.
  unfold fge. rewrite andb_true_iff, !fle_inv. split.
  - intros [(a & t & -> & Hx & Ha) (t' & b & Hx' & -> & Hb)].
    rewrite Hx in Hx'. injection Hx' as <-.
    exists t, a, b. auto.
  - intros (t & a & b & -> & -> & -> & Ha & Hb).
    split; [exists a, t | exists t, b]; auto.
Qed.

(** X1. The rows shown at the end are exactly the rows of the melted data
    that have a year within the two chosen years, a selected country, the
    chosen indicator, and a temperature within the slider's two values; a row
    whose year or temperature is missing is never among them. *)
Theorem filtered_data_rows (c : controls) (md : view) (o : observation) :
  In o (filtered_data c md) <->
  In o md /\
  (exists y, Year o = Num y /\
     inject_Z (fst (date_range c)) <= y <= inject_Z (snd (date_range c))) /\
  In (Country (ids o)) (selected_countries c) /\
  Indicator (ids o) = selected_indicator c /\
  (exists t lo hi, Temperature_Change o = Num t /\
     temperature_range c = (Num lo, Num hi) /\ lo <= t <= hi).
Proof.
  unfold filtered_data, filtered_before_slider, filter_temperature,
    filter_indicator, filter_country, filter_date.
  rewrite !filter_In, isin_In, String.eqb_eq, !between_inv.
  unfold of_int. split.
  - intros ((((Hin & y & a & b & Hy & Ha & Hb & Hrange) & Hc) & Hi)
            & t & lo & hi & Ht & Hlo & Hhi & Htemp).
    injection Ha as <-. injection Hb as <-.
    repeat split; try assumption.
    + exists y. auto.
    + exists t, lo, hi. destruct Htemp as [Ht1 Ht2].
      split; [assumption|]. split; [|split; assumption].
      destruct (temperature_range c) as [l h]; simpl in *. now subst.
  - intros (Hin & (y & Hy & Hrange) & Hc & Hi & t & lo & hi & Ht & Hr & Htemp).
    repeat split; try assumption.
    + exists y, (inject_Z (fst (date_range c))), (inject_Z (snd (date_range c))).
      auto.
    + exists t, lo, hi. rewrite Hr. auto.
Qed.

(** ** Minimum and maximum of a column *)

Lemma In_dropna (t : Q) (col : list float) : In t (dropna col) <-> In (Num t) col.
Proof.
  induction col as [|x col IH]; simpl; [reflexivity|].
  destruct x as [q|]; simpl; rewrite IH; split.
  - intros [-> | H]; auto.
  - intros [H | H]; [injection H as ->|]; auto.
  - auto.
  - intros [H | H]; [discriminate | assumption].
Qed.

Lemma fold_min_spec (rest : list Q) (x : Q) :
  In (fold_left (fun m y => if Qle_bool y m then y else m) rest x) (x :: rest) /\
  forall y, In y (x :: rest) ->
    fold_left (fun m y => if Qle_bool y m then y else m) rest x <= y.
Proof.
  revert x. induction rest as [|z rest IH]; intros x; simpl.
  - split; [now left | intros y [<- | []]; apply Qle_refl].
  - destruct (IH (if Qle_bool z x then z else x)) as [Hin Hle]. split.
    + destruct Hin as [Hin | Hin]; [|now right; right].
      rewrite <- Hin. destruct (Qle_bool z x); auto.
    + intros y Hy.
      assert (Hstep : (if Qle_bool z x then z else x) <= y \/ In y rest).
      { destruct Hy as [<- | [<- | Hy]]; auto; left.
        - destruct (Qle_bool z x) eqn:Hzx; [now apply Qle_bool_iff | apply Qle_refl].
        - destruct (Qle_bool z x) eqn:Hzx; [apply Qle_refl|].
          apply Qlt_le_weak, Qnot_le_lt. intros H.
          apply Qle_bool_iff in H. congruence. }
      destruct Hstep as [Hstep | Hrest].
      * eapply Qle_trans; [apply Hle; now left | exact Hstep].
      * apply Hle. now right.
Qed.

Lemma fold_max_spec (rest : list Q) (x : Q) :
  In (fold_left (fun m y => if Qle_bool m y then y else m) rest x) (x :: rest) /\
  forall y, In y (x :: rest) ->
    y <= fold_left (fun m y => if Qle_bool m y then y else m) rest x.
Proof.
  revert x. induction rest as [|z rest IH]; intros x; simpl.
  - split; [now left | intros y [<- | []]; apply Qle_refl].
  - destruct (IH (if Qle_bool x z then z else x)) as [Hin Hle]. split.
    + destruct Hin as [Hin | Hin]; [|now right; right].
      rewrite <- Hin. destruct (Qle_bool x z); auto.
    + intros y Hy.
      assert (Hstep : y <= (if Qle_bool x z then z else x) \/ In y rest).
      { destruct Hy as [<- | [<- | Hy]]; auto; left.
        - destruct (Qle_bool x z) eqn:Hxz; [now apply Qle_bool_iff | apply Qle_refl].
        - destruct (Qle_bool x z) eqn:Hxz; [apply Qle_refl|].
          apply Qlt_le_weak, Qnot_le_lt. intros H.
          apply Qle_bool_iff in H. congruence. }
      destruct Hstep as [Hstep | Hrest].
      * eapply Qle_trans; [exact Hstep | apply Hle; now left].
      * apply Hle. now right.
Qed.

(** On a column with a valid value, [min] and [max] are values of the column
    that bound all the others. *)
Lemma series_min_max_spec (col : list float) :
  dropna col <> [] ->
  exists lo hi,
    series_min col = Num lo /\ series_max col = Num hi /\
    In (Num lo) col /\ In (Num hi) col /\
    forall t, In (Num t) col -> lo <= t <= hi.
Proof.
  unfold series_min, series_max. intros Hne.
  destruct (dropna col) as [|x rest] eqn:Hcol; [now elim Hne|].
  destruct (fold_min_spec rest x) as [Hmin_in Hmin].
  destruct (fold_max_spec rest x) as [Hmax_in Hmax].
  eexists. eexists. repeat split.
  - apply In_dropna. now rewrite Hcol.
  - apply In_dropna. now rewrite Hcol.
  - apply Hmin. rewrite <- Hcol. now apply In_dropna.
  - apply Hmax. rewrite <- Hcol. now apply In_dropna.
Qed.

(** ** The slider's initial range *)

Lemma temperature_bounds (v : view) (o : observation) (t : Q) :
  In o v -> Temperature_Change o = Num t ->
  exists lo hi,
    temperature_min v = Num lo /\ temperature_max v = Num hi /\
    (exists o', In o' v /\ Temperature_Change o' = Num lo) /\
    (exists o', In o' v /\ Temperature_Change o' = Num hi) /\
    forall o' t', In o' v -> Temperature_Change o' = Num t' -> lo <= t' <= hi.
Proof.
  intros Hin Ht. unfold temperature_min, temperature_max.
  assert (Hne : dropna (map Temperature_Change v) <> []).
  { intros Hnil.
    assert (H : In t (dropna (map Temperature_Change v))).
    { apply In_dropna, in_map_iff. now exists o. }
    now rewrite Hnil in H. }
  destruct (series_min_max_spec _ Hne) as (lo & hi & Hmin & Hmax & Hlo & Hhi & Hall).
  exists lo, hi. repeat split; try assumption.
  - apply in_map_iff in Hlo as (o' & Ho' & Hin'). now exists o'.
  - apply in_map_iff in Hhi as (o' & Ho' & Hin'). now exists o'.
  - apply (Hall t'). apply in_map_iff. now exists o'.
  - apply (Hall t'). apply in_map_iff. now exists o'.
Qed.

Lemma initial_range_with_values (v : view) (lo hi : Q) :
  temperature_min v = Num lo -> temperature_max v = Num hi -> lo <= hi ->
  initial_temperature_range v = (Num lo, Num hi).
Proof.
  intros Hmin Hmax Hle. unfold initial_temperature_range.
  rewrite Hmin, Hmax. unfold sorted_pair; simpl.
  apply Qle_bool_iff in Hle. now rewrite Hle.
Qed.

(** The initial range when no row has a temperature (see C6). *)
Lemma initial_range_without_values (v : view) :
  dropna (map Temperature_Change v) = [] ->
  initial_temperature_range v = (Num 0, Num 1).
Proof.
  intros H.
  unfold initial_temperature_range, temperature_min, temperature_max,
    series_min, series_max.
  now rewrite H.
Qed.

(** X2. The initial range of the slider is always a pair of numbers in
    increasing order, never NaN; when some row has a temperature, its two ends
    are the lowest and the highest temperature found in the rows. *)
Theorem initial_range_is_ordered (v : view) :
  exists lo hi,
    initial_temperature_range v = (Num lo, Num hi) /\ lo <= hi /\
    (dropna (map Temperature_Change v) <> [] ->
     (exists o, In o v /\ Temperature_Change o = Num lo) /\
     (exists o, In o v /\ Temperature_Change o = Num hi) /\
     forall o t, In o v -> Temperature_Change o = Num t -> lo <= t <= hi).
Proof.
  destruct (dropna (map Temperature_Change v)) as [|t rest] eqn:Hcol.
  - exists 0, 1. split; [now apply initial_range_without_values|].
    split; [discriminate | intros H; now elim H].
  - assert (Ht : In (Num t) (map Temperature_Change v)).
    { apply In_dropna. rewrite Hcol. now left. }
    apply in_map_iff in Ht as (o & Ho & Hin).
    destruct (temperature_bounds v o t Hin Ho)
      as (lo & hi & Hmin & Hmax & Hlo & Hhi & Hall).
    assert (Hle : lo <= hi).
    { destruct (Hall o t Hin Ho). eapply Qle_trans; eassumption. }
    exists lo, hi. split; [now apply initial_range_with_values|].
    split; [assumption | intros _; auto].
Qed.

(** X3. Left at its initial range, the slider makes the temperature selection
    drop the rows without a temperature and nothing else. *)
Theorem initial_range_keeps_rows_with_values (v : view) :
  filter_temperature (initial_temperature_range v) v
  = filter (fun o => negb (isna (Temperature_Change o))) v.
Proof.
  unfold filter_temperature. apply filter_ext_in. intros o Hin.
  destruct (Temperature_Change o) as [t|] eqn:Ht.
  - destruct (temperature_bounds v o t Hin Ht)
      as (lo & hi & Hmin & Hmax & _ & _ & Hall).
    destruct (Hall o t Hin Ht) as [Hlo Hhi].
    rewrite (initial_range_with_values v lo hi Hmin Hmax (Qle_trans _ _ _ Hlo Hhi)).
    change (fge (Num t) (Num lo) && fle (Num t) (Num hi) = true).
    apply between_inv. exists t, lo, hi. auto.
  - now rewrite fge_nan.
Qed.

(** ** The statistics of a column with values *)

Lemma In_insert_sorted (x y : Q) (l : list Q) :
  In y (insert_sorted x l) <-> y = x \/ In y l.
Proof.
  induction l as [|z l IH]; simpl.
  - split; [intros [H | []]; now left | intros [H | []]; now left].
  - destruct (Qle_bool x z); simpl.
    + split; (intros [H | [H | H]]; [now left | now right; left | now right; right]).
    + rewrite IH. split.
      * intros [H | [H | H]]; [now right; left | now left | now right; right].
      * intros [H | [H | H]]; [now right; left | now left | now right; right].
Qed.

Lemma In_sort_values (y : Q) (xs : list Q) : In y (sort_values xs) <-> In y xs.
Proof.
  unfold sort_values.
  induction xs as [|x xs IH]; simpl; [reflexivity|].
  rewrite In_insert_sorted, IH. split; (intros [H | H]; [now left | now right]).
Qed.

Lemma length_insert_sorted (x : Q) (l : list Q) :
  List.length (insert_sorted x l) = S (List.length l).
Proof.
  induction l as [|z l IH]; simpl; [reflexivity|].
  destruct (Qle_bool x z); simpl; [reflexivity | now rewrite IH].
Qed.

Lemma length_sort_values (xs : list Q) :
  List.length (sort_values xs) = List.length xs.
Proof.
  unfold sort_values.
  induction xs as [|x xs IH]; simpl; [reflexivity|].
  now rewrite length_insert_sorted, IH.
Qed.

Lemma median_bounds (lo hi x : Q) (xs : list Q) :
  (forall y, In y (x :: xs) -> lo <= y <= hi) ->
  exists med, series_median (map Num (x :: xs)) = Num med /\ lo <= med <= hi.
Proof.
  intros Hall. unfold series_median.
  assert (Hdrop : forall l, dropna (map Num l) = l).
  { induction l as [|z l IH]; simpl; [reflexivity | now rewrite IH]. }
  rewrite Hdrop.
  set (s := sort_values (x :: xs)).
  assert (Hlen : List.length s = S (List.length xs)).
  { unfold s. now rewrite length_sort_values. }
  assert (Hnth : forall i, (i < List.length s)%nat -> lo <= nth i s 0 <= hi).
  { intros i Hi. apply Hall. apply In_sort_values. now apply nth_In. }
  rewrite Hlen.
  assert (Hhalf : (S (List.length xs) / 2 < List.length s)%nat).
  { rewrite Hlen. apply Nat.div_lt; lia. }
  destruct (Nat.even (S (List.length xs))).
  - eexists. split; [reflexivity|]. rewrite Qred_correct.
    destruct (Hnth (S (List.length xs) / 2 - 1)%nat) as [Ha Hb]; [lia|].
    destruct (Hnth (S (List.length xs) / 2)%nat) as [Hc Hd]; [assumption|].
    split.
    + apply Qle_shift_div_l; [reflexivity|].
      setoid_replace (lo * 2) with (lo + lo) by ring.
      now apply Qplus_le_compat.
    + apply Qle_shift_div_r; [reflexivity|].
      setoid_replace (hi * 2) with (hi + hi) by ring.
      now apply Qplus_le_compat.
  - eexists. split; [reflexivity|]. now apply Hnth.
Qed.

Lemma statistics_of_values (col : list float) :
  series_mean col = series_mean (map Num (dropna col)) /\
  series_median col = series_median (map Num (dropna col)).
Proof.
  assert (Hdrop : forall l, dropna (map Num l) = l).
  { induction l as [|z l IH]; simpl; [reflexivity | now rewrite IH]. }
  unfold series_mean, series_median. now rewrite Hdrop.
Qed.

(** X4. On a column with at least one valid value, the minimum and the
    maximum are values of the column, every valid value lies between them and
    so does the median; the mean is a number too, not NaN. *)
Theorem statistics_of_a_column_with_values (col : list float) :
  dropna col <> [] ->
  exists lo hi med m,
    series_min col = Num lo /\ series_max col = Num hi /\
    series_median col = Num med /\ series_mean col = Num m /\
    In (Num lo) col /\ In (Num hi) col /\
    (forall t, In (Num t) col -> lo <= t <= hi) /\
    lo <= med <= hi.
Proof.
  intros Hne.
  destruct (series_min_max_spec col Hne)
    as (lo & hi & Hmin & Hmax & Hlo & Hhi & Hall).
  destruct (statistics_of_values col) as [Hmean Hmedian].
  destruct (dropna col) as [|x xs] eqn:Hcol; [now elim Hne|].
  assert (Hbounds : forall y, In y (x :: xs) -> lo <= y <= hi).
  { intros y Hy. apply Hall, In_dropna. now rewrite Hcol. }
  destruct (median_bounds lo hi x xs Hbounds) as (med & Hmed & Hmed_le).
  exists lo, hi, med, (Qred (qsum (x :: xs) / qcount (x :: xs))).
  split; [assumption|]. split; [assumption|].
  split; [now rewrite Hmedian|].
  split; [unfold series_mean; now rewrite Hcol|].
  split; [assumption|]. split; [assumption|]. split; assumption.
Qed.

(** X5. With exactly one valid value in the column, the mean, the median, the
    maximum and the minimum are that value, and the standard deviation is NaN:
    the sidebar prints it as [nan]. *)
Theorem statistics_of_one_value (col : list float) (x : Q) :
  dropna col = [x] ->
  series_mean col = Num (Qred x) /\
  series_median col = Num x /\
  series_max col = Num x /\
  series_min col = Num x /\
  series_std col = NaN /\
  stat_line "Standard Deviation" (series_std col) = "Standard Deviation: nan"%string.
Proof.
  intros H.
  unfold stat_line, series_mean, series_median, series_max, series_min, series_std.
  rewrite H. repeat split.
  f_equal. apply Qred_complete. unfold qsum, qcount; simpl. field.
Qed.

(** ** What [custom_mean] returns *)

Lemma to_numeric_cases (series : list cell) :
  (to_numeric series = None <->
   Exists (fun c => exists s, c = CStr s /\ parse_float s = None) series) /\
  (forall col, to_numeric series = Some col -> col = map to_numeric_coerce series).
Proof.
  induction series as [|c series [IHnone IHsome]]; simpl.
  - split; [split; [discriminate | intros H; inversion H]|].
    intros col H. now injection H as <-.
  - destruct c as [f|s]; simpl.
    + split.
      * rewrite Exists_cons, <- IHnone.
        destruct (to_numeric series); simpl; split; try discriminate; auto.
        intros [(s & Hs & _) | H]; discriminate.
      * intros col H. destruct (to_numeric series) as [col'|]; [|discriminate].
        injection H as <-. now rewrite (IHsome col' eq_refl).
    + destruct (parse_float s) as [f|] eqn:Hs.
      * split.
        -- rewrite Exists_cons, <- IHnone.
           destruct (to_numeric series); simpl; split; try discriminate; auto.
           intros [(s' & Hs' & Hnone) | H]; [|discriminate].
           injection Hs' as <-. congruence.
        -- intros col H. destruct (to_numeric series) as [col'|]; [|discriminate].
           injection H as <-. now rewrite (IHsome col' eq_refl).
      * split; [|discriminate].
        split; [|reflexivity]. intros _. apply Exists_cons_hd. now exists s.
Qed.

(** X6. [custom_mean] returns [None] exactly when the series holds a text that
    is not a number, even beside valid values; otherwise it returns the mean
    of the values that the coercing conversion would give. *)
Theorem custom_mean_cases (series : list cell) :
  (custom_mean series = None <->
   Exists (fun c => exists s, c = CStr s /\ parse_float s = None) series) /\
  (forall m, custom_mean series = Some m ->
     m = series_mean (map to_numeric_coerce series)).
Proof.
  destruct (to_numeric_cases series) as [Hnone Hsome].
  unfold custom_mean. split.
  - rewrite <- Hnone. destruct (to_numeric series); split; try discriminate; auto.
  - intros m H. destruct (to_numeric series) as [col|]; [|discriminate].
    injection H as <-. now rewrite (Hsome col eq_refl).
Qed.

(** ** The order of the aggregated table *)

Lemma ascii_compare_lt_trans (a b c : ascii) :
  Ascii.compare a b = Lt -> Ascii.compare b c = Lt -> Ascii.compare a c = Lt.
Proof.
  unfold Ascii.compare. rewrite !N.compare_lt_iff. apply N.lt_trans.
Qed.

Lemma string_compare_refl (s : string) : String.compare s s = Eq.
Proof.
  induction s as [|c s IH]; simpl; [reflexivity|].
  unfold Ascii.compare. now rewrite N.compare_refl.
Qed.

Lemma string_compare_lt_trans (a b c : string) :
  String.compare a b = Lt -> String.compare b c = Lt -> String.compare a c = Lt.
Proof.
  revert b c. induction a as [|x a IH]; intros [|y b] [|z c]; simpl;
    try discriminate; try reflexivity.
  destruct (Ascii.compare x y) eqn:Hxy; try discriminate;
    destruct (Ascii.compare y z) eqn:Hyz; try discriminate; intros Hab Hbc.
  - apply Ascii.compare_eq_iff in Hxy, Hyz. subst.
    assert (Hzz : Ascii.compare z z = Eq).
    { unfold Ascii.compare. apply N.compare_refl. }
    rewrite Hzz. now apply (IH b c).
  - apply Ascii.compare_eq_iff in Hxy. subst. now rewrite Hyz.
  - apply Ascii.compare_eq_iff in Hyz. subst. now rewrite Hxy.
  - now rewrite (ascii_compare_lt_trans x y z Hxy Hyz).
Qed.

(** A key comes before another: an earlier region, or the same region and an
    earlier year. *)
Lemma key_compare_lt (a b : string * Q) :
  key_compare a b = Lt <->
  String.compare (fst a) (fst b) = Lt \/ (fst a = fst b /\ snd a < snd b).
Proof.
  unfold key_compare. destruct (String.compare (fst a) (fst b)) eqn:H.
  - apply String.compare_eq_iff in H. rewrite <- Qlt_alt. split.
    + intros Hlt. now right.
    + intros [Hd | [_ Hlt]]; [discriminate | assumption].
  - split; [now left | reflexivity].
  - split; [discriminate|]. intros [Hd | [Heq _]]; [discriminate|].
    rewrite Heq, string_compare_refl in H. discriminate.
Qed.

Lemma key_compare_eq (a b : string * Q) :
  key_compare a b = Eq <-> fst a = fst b /\ snd a == snd b.
Proof.
  unfold key_compare. destruct (String.compare (fst a) (fst b)) eqn:H.
  - apply String.compare_eq_iff in H. rewrite <- Qeq_alt. tauto.
  - split; [discriminate|]. intros [Heq _].
    rewrite Heq, string_compare_refl in H. discriminate.
  - split; [discriminate|]. intros [Heq _].
    rewrite Heq, string_compare_refl in H. discriminate.
Qed.

Lemma key_compare_gt (a b : string * Q) :
  key_compare a b = Gt -> key_compare b a = Lt.
Proof.
  unfold key_compare.
  rewrite (String.compare_antisym (fst b) (fst a)).
  destruct (String.compare (fst a) (fst b)); simpl; try discriminate; auto.
  rewrite <- (Qcompare_antisym (snd a) (snd b)).
  destruct (snd a ?= snd b); simpl; try discriminate; auto.
Qed.

Lemma key_compare_lt_trans (a b c : string * Q) :
  key_compare a b = Lt -> key_compare b c = Lt -> key_compare a c = Lt.
Proof.
  rewrite !key_compare_lt.
  intros [Hab | [Hab Hyab]] [Hbc | [Hbc Hybc]].
  - left. eapply string_compare_lt_trans; eassumption.
  - left. now rewrite <- Hbc.
  - left. now rewrite Hab.
  - right. split; [congruence | eapply Qlt_trans; eassumption].
Qed.

Lemma insert_key_sorted (k : string * Q) (ks : list (string * Q)) :
  StronglySorted (fun a b => key_compare a b = Lt) ks ->
  StronglySorted (fun a b => key_compare a b = Lt) (insert_key k ks).
Proof.
  induction 1 as [|k' ks Hsorted IH Hall]; simpl.
  - repeat constructor.
  - destruct (key_compare k k') eqn:Hk.
    + now constructor.
    + constructor; [now constructor|].
      constructor; [assumption|].
      eapply Forall_impl; [|exact Hall].
      intros k'' Hk''. eapply key_compare_lt_trans; eassumption.
    + constructor; [assumption|].
      apply Forall_forall. intros k'' Hin.
      apply in_insert_key in Hin as [-> | Hin].
      * now apply key_compare_gt.
      * rewrite Forall_forall in Hall. now apply Hall.
Qed.

Lemma group_keys_sorted (rows : list (observation * option string)) :
  StronglySorted (fun a b => key_compare a b = Lt) (group_keys rows).
Proof.
  induction rows as [|r rows IH]; simpl; [constructor|].
  destruct (group_key r); [now apply insert_key_sorted | assumption].
Qed.

Lemma sorted_impl (A : Type) (R S : A -> A -> Prop) (l : list A) :
  (forall a b, R a b -> S a b) -> StronglySorted R l -> StronglySorted S l.
Proof.
  intros Himpl. induction 1 as [|a l _ IH Hall]; constructor; [assumption|].
  eapply Forall_impl; [|exact Hall]. intros b. apply Himpl.
Qed.

Lemma map_sorted (A B : Type) (f : A -> B) (R : B -> B -> Prop) (l : list A) :
  StronglySorted (fun a b => R (f a) (f b)) l -> StronglySorted R (map f l).
Proof.
  induction 1 as [|a l _ IH Hall]; simpl; constructor; [assumption|].
  apply Forall_map. exact Hall.
Qed.

(** X7. The aggregated table is in strictly increasing order, by region first
    (in the order of the characters' codes) and by year within a region: two
    of its rows never have the same region and year. *)
Theorem aggregated_data_is_ordered (v : view) :
  StronglySorted
    (fun r1 r2 =>
       String.compare (Aggregated r1) (Aggregated r2) = Lt \/
       (Aggregated r1 = Aggregated r2 /\ agg_Year r1 < agg_Year r2))
    (aggregated_data v).
Proof.
  unfold aggregated_data, aggregate_rows.
  apply map_sorted; simpl.
  eapply sorted_impl; [|apply group_keys_sorted].
  intros a b Hab. now apply key_compare_lt.
Qed.

(** ** The groups of the aggregated table *)

(** The rows of a view that fall in the group of a region and a year. *)
Definition rows_of_group (g : string) (y : Q) (v : view) : view :=
  filter (fun o =>
            match dict_get (Country (ids o)) actual_region_mapping, Year o with
            | Some g', Num y' => String.eqb g g' && Qeq_bool y y'
            | _, _ => false
            end) v.

Lemma key_eqb_spec (a b : string * Q) :
  key_eqb a b = String.eqb (fst a) (fst b) && Qeq_bool (snd a) (snd b).
Proof.
  unfold key_eqb.
  destruct (String.eqb (fst a) (fst b) && Qeq_bool (snd a) (snd b)) eqn:H.
  - apply andb_true_iff in H as [Hs Hq].
    apply String.eqb_eq in Hs. apply Qeq_bool_iff in Hq.
    now rewrite (proj2 (key_compare_eq a b) (conj Hs Hq)).
  - destruct (key_compare a b) eqn:Hc; try reflexivity.
    apply key_compare_eq in Hc as [Hs Hq].
    apply String.eqb_eq in Hs. apply Qeq_bool_iff in Hq.
    rewrite Hs, Hq in H. discriminate.
Qed.

Lemma group_values_rows (g : string) (y : Q) (v : view) :
  group_values (g, y) (add_aggregated v)
  = map Temperature_Change (rows_of_group g y v).
Proof.
  unfold group_values, rows_of_group, add_aggregated.
  induction v as [|o v IH]; [reflexivity|].
  cbn [map filter]. unfold in_group at 1, group_key. cbn [fst snd].
  destruct (dict_get (Country (ids o)) actual_region_mapping) as [g'|];
    [destruct (Year o) as [y'|]|]; try exact IH.
  rewrite key_eqb_spec. cbn [fst snd].
  destruct (String.eqb g g' && Qeq_bool y y'); cbn [map fst]; now rewrite IH.
Qed.

Lemma insert_key_keeps (k k0 : string * Q) (ks : list (string * Q)) :
  In k0 ks -> In k0 (insert_key k ks).
Proof.
  induction ks as [|k' ks IH]; simpl; [intros []|].
  destruct (key_compare k k'); simpl.
  - trivial.
  - intros H. now right.
  - intros [H | H]; [now left | right; now apply IH].
Qed.

Lemma insert_key_has (k : string * Q) (ks : list (string * Q)) :
  exists k', In k' (insert_key k ks) /\ key_compare k k' = Eq.
Proof.
  induction ks as [|k0 ks (k' & Hin & Heq)]; simpl.
  - exists k. split; [now left|]. apply key_compare_eq. split; reflexivity.
  - destruct (key_compare k k0) eqn:Hk.
    + exists k0. split; [now left | assumption].
    + exists k. split; [now left|]. apply key_compare_eq. split; reflexivity.
    + exists k'. split; [now right | assumption].
Qed.

Lemma group_keys_cover (rows : list (observation * option string))
      (r : observation * option string) (k : string * Q) :
  In r rows -> group_key r = Some k ->
  exists k', In k' (group_keys rows) /\ key_compare k k' = Eq.
Proof.
  induction rows as [|r0 rows IH]; simpl; [intros []|].
  intros [-> | Hin] Hk.
  - rewrite Hk. apply insert_key_has.
  - destruct (IH Hin Hk) as (k' & Hin' & Heq).
    exists k'. split; [|assumption].
    destruct (group_key r0); [now apply insert_key_keeps | assumption].
Qed.

(** X8. Every row of the view whose country is a key of the region mapping
    and whose year is not missing is counted: the aggregated table has a row
    for its region and year, and the value of that row is the mean of the
    temperatures of all the rows of the view with that region and year. *)
Theorem mapped_rows_are_aggregated (v : view) (o : observation) (g : string) (y : Q) :
  In o v ->
  dict_get (Country (ids o)) actual_region_mapping = Some g ->
  Year o = Num y ->
  exists row,
    In row (aggregated_data v) /\
    Aggregated row = g /\ agg_Year row == y /\
    In o (rows_of_group (Aggregated row) (agg_Year row) v) /\
    agg_Temperature_Change row
    = Some (series_mean
              (map Temperature_Change
                   (rows_of_group (Aggregated row) (agg_Year row) v))).
Proof.
  intros Hin Hg Hy.
  assert (Hrow : In (o, dict_get (Country (ids o)) actual_region_mapping)
                    (add_aggregated v)).
  { unfold add_aggregated. apply in_map_iff. now exists o. }
  assert (Hkey : group_key (o, dict_get (Country (ids o)) actual_region_mapping)
                 = Some (g, y)).
  { unfold group_key. cbn [fst snd]. now rewrite Hg, Hy. }
  destruct (group_keys_cover _ _ _ Hrow Hkey) as ([g' y'] & Hin' & Heq).
  apply key_compare_eq in Heq as [Hgg Hyy]. cbn [fst snd] in Hgg, Hyy. subst g'.
  exists (mk_agg g y' (custom_mean (map CFloat (group_values (g, y') (add_aggregated v))))).
  cbn [Aggregated agg_Year agg_Temperature_Change].
  split; [|split; [reflexivity|split; [now symmetry|split]]].
  - unfold aggregated_data, aggregate_rows. apply in_map_iff.
    now exists (g, y').
  - unfold rows_of_group. apply filter_In. split; [assumption|].
    rewrite Hg, Hy, String.eqb_refl. simpl.
    apply Qeq_bool_iff. now symmetry.
  - now rewrite custom_mean_floats, group_values_rows.
Qed.

(** X9. In a run of the script every value of the aggregated table is a
    number, never [None] nor NaN: each group holds a row of the filtered data,
    and the rows without a temperature were dropped by the temperature
    selection before the aggregation. *)
Theorem aggregated_values_are_numbers
        (c : controls) (md : view) (row : aggregated_observation) :
  In row (aggregated_data (filtered_data c md)) ->
  (exists m, agg_Temperature_Change row = Some (Num m)) /\
  exists o t,
    In o (rows_of_group (Aggregated row) (agg_Year row) (filtered_data c md)) /\
    Temperature_Change o = Num t.
Proof.
  intros Hrow. unfold aggregated_data in Hrow.
  apply in_aggregate_rows in Hrow as [Hkey Hvalue].
  apply in_group_keys in Hkey as ([o d] & Hin & Hkey).
  assert (Hd : d = dict_get (Country (ids o)) actual_region_mapping /\
               In o (filtered_data c md)).
  { unfold add_aggregated in Hin. apply in_map_iff in Hin as (o' & Heq & Hin).
    injection Heq as -> <-. auto. }
  destruct Hd as [-> Ho].
  pose proof (proj1 (filtered_data_rows c md o) Ho)
    as (_ & _ & _ & _ & t & lo & hi & Ht & _ & _).
  assert (Hself : In o (rows_of_group (Aggregated row) (agg_Year row)
                                      (filtered_data c md))).
  { unfold rows_of_group. apply filter_In. split; [assumption|].
    unfold group_key in Hkey. cbn [fst snd] in Hkey.
    destruct (dict_get (Country (ids o)) actual_region_mapping) as [g|];
      [|discriminate].
    destruct (Year o) as [y|]; [|discriminate].
    injection Hkey as <- <-. rewrite String.eqb_refl. simpl.
    apply Qeq_bool_iff. reflexivity. }
  split; [|now exists o, t].
  rewrite Hvalue, group_values_rows. unfold series_mean.
  destruct (dropna (map Temperature_Change
                        (rows_of_group (Aggregated row) (agg_Year row)
                                       (filtered_data c md)))) as [|x xs] eqn:Hcol.
  - assert (Hin_t : In t (dropna (map Temperature_Change
                        (rows_of_group (Aggregated row) (agg_Year row)
                                       (filtered_data c md))))).
    { apply In_dropna. rewrite <- Ht. now apply in_map. }
    now rewrite Hcol in Hin_t.
  - eexists. reflexivity.
Qed.

(** ** Years are never negative *)

Lemma digit_value_range (c : ascii) :
  is_digit c = true -> (0 <= digit_value c <= 9)%Z.
Proof.
  unfold is_digit, digit_value. intros H.
  apply andb_true_iff in H as [Hlo Hhi].
  apply Nat.leb_le in Hlo, Hhi. lia.
Qed.

Lemma int_of_digits_from_nonneg (ds : string) (acc : Z) :
  all_digits ds = true -> (0 <= acc)%Z -> (0 <= int_of_digits_from acc ds)%Z.
Proof.
  unfold all_digits. revert acc.
  induction ds as [|c ds IH]; cbn [int_of_digits_from all_chars];
    intros acc Hds Hacc; [assumption|].
  apply andb_true_iff in Hds as [Hc Hds].
  apply IH; [assumption|]. pose proof (digit_value_range c Hc). lia.
Qed.

Lemma year_of_label_nonneg (label : string) :
  year_of_label label = NaN \/
  exists n, (0 <= n)%Z /\ year_of_label label = of_int n.
Proof.
  unfold year_of_label.
  destruct (extract_digits label) as [ds|] eqn:H; [right | now left].
  apply extract_digits_run in H as (pre & post & _ & _ & _ & Hds & _).
  exists (int_of_digits ds). split; [|reflexivity].
  now apply int_of_digits_from_nonneg.
Qed.


(** ** The options of the country selection *)

Lemma unique_strings_In (x : string) (l : list string) :
  In x (unique String.eqb l) <-> In x l.
Proof.
  induction l as [|a l IH]; simpl; [reflexivity|].
  rewrite filter_In, IH. split.
  - intros [H | [H _]]; [now left | now right].
  - intros [H | H]; [now left|].
    destruct (String.eqb a x) eqn:Hax.
    + left. now apply String.eqb_eq.
    + right. auto.
Qed.

Lemma unique_strings_NoDup (l : list string) : NoDup (unique String.eqb l).
Proof.
  induction l as [|a l IH]; simpl; constructor.
  - rewrite filter_In. intros [_ H]. now rewrite String.eqb_refl in H.
  - now apply NoDup_filter.
Qed.

(** X11. The countries offered by the multiselect are the countries of the
    melted data, each once; with all of them selected the country selection
    keeps every row that the date selection kept. *)
Theorem every_country_selected (md : view) :
  NoDup (country_options md) /\
  (forall name, In name (country_options md) <->
                exists o, In o md /\ Country (ids o) = name) /\
  forall range,
    filter_country (country_options md) (filter_date range md)
    = filter_date range md.
Proof.
  unfold country_options. split; [apply unique_strings_NoDup|]. split.
  - intros name. rewrite unique_strings_In, in_map_iff.
    split; intros (o & H1 & H2); exists o; auto.
  - intros range. unfold filter_country.
    rewrite <- (filter_ext_in (fun _ => true)).
    + induction (filter_date range md) as [|o v IH]; simpl; congruence.
    + intros o Ho. symmetry. apply isin_In, unique_strings_In.
      apply (in_map (fun o' => Country (ids o'))).
      unfold filter_date in Ho. now apply filter_In in Ho.
Qed.

(** ** The default date range *)

Lemma float_same_refl (x : float) : float_same x x = true.
Proof. destruct x as [q|]; simpl; [|reflexivity]. apply Qeq_bool_iff. reflexivity. Qed.

Lemma float_same_trans (x y z : float) :
  float_same x y = true -> float_same y z = true -> float_same x z = true.
Proof.
  destruct x as [a|], y as [b|], z as [c|]; simpl; try discriminate; auto.
  rewrite !Qeq_bool_iff. intros Hab Hbc. now rewrite Hab.
Qed.

Lemma unique_floats_sub (x : float) (l : list float) :
  In x (unique float_same l) -> In x l.
Proof.
  induction l as [|a l IH]; simpl; [trivial|].
  rewrite filter_In. intros [H | [H _]]; [now left | right; now apply IH].
Qed.

Lemma unique_floats_rep (x : float) (l : list float) :
  In x l -> exists x', In x' (unique float_same l) /\ float_same x' x = true.
Proof.
  induction l as [|a l IH]; simpl; [intros []|].
  intros [-> | Hin].
  - exists x. split; [now left | apply float_same_refl].
  - destruct (IH Hin) as (x' & Hin' & Hsame).
    destruct (float_same a x') eqn:Hax.
    + exists a. split; [now left|]. eapply float_same_trans; eassumption.
    + exists x'. split; [|assumption].
      right. apply filter_In. split; [assumption | now rewrite Hax].
Qed.

Lemma fold_py_min_nan (rest : list float) :
  fold_left (fun m y => if flt y m then y else m) rest NaN = NaN.
Proof.
  induction rest as [|y rest IH]; simpl; [reflexivity|].
  destruct y; simpl; exact IH.
Qed.

Lemma fold_py_max_nan (rest : list float) :
  fold_left (fun m y => if flt m y then y else m) rest NaN = NaN.
Proof.
  induction rest as [|y rest IH]; simpl; [reflexivity | exact IH].
Qed.

Lemma fold_py_min_num (rest : list float) (x : Q) :
  exists m,
    fold_left (fun m y => if flt y m then y else m) rest (Num x) = Num m /\
    In (Num m) (Num x :: rest) /\
    forall t, In (Num t) (Num x :: rest) -> m <= t.
Proof.
  revert x. induction rest as [|y rest IH]; intros x.
  - exists x. simpl. split; [reflexivity|]. split; [now left|].
    intros t [H | []]. injection H as <-. apply Qle_refl.
  - cbn [fold_left].
    assert (Hstep : exists x',
               (if flt y (Num x) then y else Num x) = Num x' /\
               In (Num x') [Num x; y] /\ x' <= x /\
               forall t, y = Num t -> x' <= t).
    { destruct y as [z|]; simpl.
      - destruct (Qle_bool x z) eqn:Hxz; simpl.
        + exists x. repeat split; auto using Qle_refl.
          intros t H. injection H as <-. now apply Qle_bool_iff.
        + exists z. split; [reflexivity|]. split; [simpl; auto|]. split.
          * apply Qlt_le_weak, Qnot_le_lt. intros H.
            apply Qle_bool_iff in H. congruence.
          * intros t H. injection H as <-. apply Qle_refl.
      - exists x. repeat split; auto using Qle_refl. discriminate. }
    destruct Hstep as (x' & -> & Hin & Hle & Hy).
    destruct (IH x') as (m & Hm & Hm_in & Hm_le).
    exists m. split; [assumption|]. split.
    + destruct Hm_in as [H | H]; [|now right; right].
      rewrite <- H. destruct Hin as [H' | [H' | []]]; rewrite <- H'; simpl; auto.
    + intros t [H | [H | H]].
      * injection H as <-.
        eapply Qle_trans; [apply Hm_le; now left | assumption].
      * eapply Qle_trans; [apply Hm_le; now left | now apply Hy].
      * apply Hm_le. now right.
Qed.

Lemma fold_py_max_num (rest : list float) (x : Q) :
  exists m,
    fold_left (fun m y => if flt m y then y else m) rest (Num x) = Num m /\
    In (Num m) (Num x :: rest) /\
    forall t, In (Num t) (Num x :: rest) -> t <= m.
Proof.
  revert x. induction rest as [|y rest IH]; intros x.
  - exists x. simpl. split; [reflexivity|]. split; [now left|].
    intros t [H | []]. injection H as <-. apply Qle_refl.
  - cbn [fold_left].
    assert (Hstep : exists x',
               (if flt (Num x) y then y else Num x) = Num x' /\
               In (Num x') [Num x; y] /\ x <= x' /\
               forall t, y = Num t -> t <= x').
    { destruct y as [z|]; simpl.
      - destruct (Qle_bool z x) eqn:Hzx; simpl.
        + exists x. repeat split; auto using Qle_refl.
          intros t H. injection H as <-. now apply Qle_bool_iff.
        + exists z. split; [reflexivity|]. split; [simpl; auto|]. split.
          * apply Qlt_le_weak, Qnot_le_lt. intros H.
            apply Qle_bool_iff in H. congruence.
          * intros t H. injection H as <-. apply Qle_refl.
      - exists x. repeat split; auto using Qle_refl. discriminate. }
    destruct Hstep as (x' & -> & Hin & Hle & Hy).
    destruct (IH x') as (m & Hm & Hm_in & Hm_le).
    exists m. split; [assumption|]. split.
    + destruct Hm_in as [H | H]; [|now right; right].
      rewrite <- H. destruct Hin as [H' | [H' | []]]; rewrite <- H'; simpl; auto.
    + intros t [H | [H | H]].
      * injection H as <-.
        eapply Qle_trans; [eassumption | apply Hm_le; now left].
      * eapply Qle_trans; [now apply Hy | apply Hm_le; now left].
      * apply Hm_le. now right.
Qed.

(** A view in which every year is missing or a whole number, as in the
    melted data. *)
Definition whole_years (md : view) : Prop :=
  forall o, In o md -> Year o = NaN \/ exists n, Year o = of_int n.

Lemma py_int_whole (n : Z) : py_int (of_int n) = Some n.
Proof. unfold py_int, of_int; simpl. now rewrite Z.quot_1_r. Qed.

Lemma date_year_some (y a : Z) : date_year y = Some a -> a = y /\ (1 <= a <= 9999)%Z.
Proof.
  unfold date_year.
  destruct ((1 <=? y)%Z && (y <=? 9999)%Z) eqn:H; [|discriminate].
  intros Ha. injection Ha as <-.
  apply andb_true_iff in H as [H1 H2]. apply Z.leb_le in H1, H2. auto.
Qed.

Lemma years_whole (md : view) (q : Q) :
  whole_years md -> In (Num q) (years md) ->
  exists o n, In o md /\ Year o = of_int n /\ q = inject_Z n.
Proof.
  intros Hwhole Hin. unfold years in Hin.
  apply unique_floats_sub, in_map_iff in Hin as (o & Ho & Hin).
  destruct (Hwhole o Hin) as [H | (n & H)]; [congruence|].
  exists o, n. split; [assumption|]. split; [assumption|].
  rewrite Ho in H. now injection H.
Qed.

Lemma years_cover (md : view) (o : observation) (n : Z) :
  In o md -> Year o = of_int n ->
  exists q, In (Num q) (years md) /\ q == inject_Z n.
Proof.
  intros Hin Hy.
  destruct (unique_floats_rep (of_int n) (map Year md)) as (x' & Hin' & Hsame).
  { rewrite <- Hy. now apply in_map. }
  destruct x' as [q|]; [|discriminate].
  exists q. split; [assumption | now apply Qeq_bool_iff].
Qed.

Lemma year_bound_min (md : view) (a : Z) :
  whole_years md -> year_bound py_min md = Some a ->
  (1 <= a <= 9999)%Z /\
  (exists o, In o md /\ Year o = of_int a) /\
  forall o n, In o md -> Year o = of_int n -> (a <= n)%Z.
Proof.
  intros Hwhole. unfold year_bound, py_min.
  destruct (years md) as [|x rest] eqn:Hyears; [discriminate|].
  destruct x as [x|]; [|now rewrite fold_py_min_nan].
  destruct (fold_py_min_num rest x) as (m & -> & Hm_in & Hm_le).
  rewrite <- Hyears in Hm_in, Hm_le.
  destruct (years_whole md m Hwhole Hm_in) as (o & n & Ho & Hy & ->).
  fold (of_int n). rewrite py_int_whole. intros Ha.
  apply date_year_some in Ha as [-> Hrange].
  split; [assumption|]. split; [now exists o|].
  intros o' n' Ho' Hy'.
  destruct (years_cover md o' n' Ho' Hy') as (q & Hq & Heq).
  rewrite Zle_Qle, <- Heq. now apply Hm_le.
Qed.

Lemma year_bound_max (md : view) (b : Z) :
  whole_years md -> year_bound py_max md = Some b ->
  (1 <= b <= 9999)%Z /\
  (exists o, In o md /\ Year o = of_int b) /\
  forall o n, In o md -> Year o = of_int n -> (n <= b)%Z.
Proof.
  intros Hwhole. unfold year_bound, py_max.
  destruct (years md) as [|x rest] eqn:Hyears; [discriminate|].
  destruct x as [x|]; [|now rewrite fold_py_max_nan].
  destruct (fold_py_max_num rest x) as (m & -> & Hm_in & Hm_le).
  rewrite <- Hyears in Hm_in, Hm_le.
  destruct (years_whole md m Hwhole Hm_in) as (o & n & Ho & Hy & ->).
  fold (of_int n). rewrite py_int_whole. intros Hb.
  apply date_year_some in Hb as [-> Hrange].
  split; [assumption|]. split; [now exists o|].
  intros o' n' Ho' Hy'.
  destruct (years_cover md o' n' Ho' Hy') as (q & Hq & Heq).
  rewrite Zle_Qle, <- Heq. now apply Hm_le.
Qed.

Lemma melted_years_whole (df : data_frame) : whole_years (melted_data df).
Proof.
  intros o Ho.
  unfold melted_data in Ho. apply in_map_iff in Ho as (r & <- & _).
  unfold convert_row; cbn [Year].
  destruct (year_of_label_nonneg (m_var r)) as [H | (n & _ & H)]; eauto.
Qed.

(** X12. When lines 32 and 33 complete, the two default years are years of
    the data between 1 and 9999, the first not after the second, and the date
    selection with them drops the rows whose year is missing and no other
    row. *)
Theorem default_date_range_keeps_dated_rows (df : data_frame) (start stop : Z) :
  default_date_range (melted_data df) = Some (start, stop) ->
  (1 <= start <= stop)%Z /\ (stop <= 9999)%Z /\
  (exists o, In o (melted_data df) /\ Year o = of_int start) /\
  (exists o, In o (melted_data df) /\ Year o = of_int stop) /\
  filter_date (start, stop) (melted_data df)
  = filter (fun o => negb (isna (Year o))) (melted_data df).
Proof.
  unfold default_date_range. intros H.
  destruct (year_bound py_min (melted_data df)) as [a|] eqn:Ha; [|discriminate].
  destruct (year_bound py_max (melted_data df)) as [b|] eqn:Hb; [|discriminate].
  injection H as <- <-.
  destruct (year_bound_min _ _ (melted_years_whole df) Ha)
    as (Ha_range & (oa & Hoa & Hya) & Hmin).
  destruct (year_bound_max _ _ (melted_years_whole df) Hb)
    as (Hb_range & Hob & Hmax).
  pose proof (Hmax oa a Hoa Hya) as Hab.
  split; [lia|]. split; [lia|]. split; [now exists oa|]. split; [assumption|].
  unfold filter_date. apply filter_ext_in. intros o Ho. cbn [fst snd].
  destruct (melted_years_whole df o Ho) as [Hy | (n & Hy)]; rewrite Hy.
  - now rewrite fge_nan.
  - change (fge (of_int n) (of_int a) && fle (of_int n) (of_int b) = true).
    apply between_inv. exists (inject_Z n), (inject_Z a), (inject_Z b).
    repeat split; try reflexivity; rewrite <- Zle_Qle; eauto.
Qed.

(** X13. The script stops at line 32 before any widget is drawn when the
    melted data is empty ([min] of an empty sequence), and when its first row
    has no year: with a first value column whose label is ASCII text without
    a digit, [min] keeps the NaN it starts from and [int] refuses it. *)
Theorem default_date_range_raises :
  default_date_range [] = None /\
  (forall (o : observation) (md : view),
      Year o = NaN -> default_date_range (o :: md) = None) /\
  (forall (df : data_frame) label c cells cols i rows,
      value_columns df = (label, c :: cells) :: cols ->
      id_rows df = i :: rows ->
      ascii_only label = true ->
      no_digit label = true ->
      default_date_range (melted_data df) = None).
Proof.
  assert (Hfirst : forall (o : observation) (md : view),
             Year o = NaN -> default_date_range (o :: md) = None).
  { intros o md Hy. unfold default_date_range, year_bound, years.
    cbn [map unique]. rewrite Hy. unfold py_min.
    now rewrite fold_py_min_nan. }
  split; [reflexivity|]. split; [exact Hfirst|].
  intros df label c cells cols i rows Hcols Hrows _ Hlabel.
  unfold melted_data, melt. rewrite Hcols, Hrows.
  cbn [flat_map melt_column snd fst combine map app].
  apply Hfirst. unfold convert_row; cbn [Year m_var].
  unfold year_of_label. now rewrite (proj2 (extract_digits_none label) Hlabel).
Qed.

(** ** Reading back a printed year *)

Lemma digits_of_uint (d : Decimal.uint) (acc : nat) :
  all_digits (NilEmpty.string_of_uint d) = true /\
  int_of_digits_from (Z.of_nat acc) (NilEmpty.string_of_uint d)
  = Z.of_nat (Nat.of_uint_acc d acc).
Proof.
  unfold all_digits. revert acc.
  induction d as [|d IH|d IH|d IH|d IH|d IH|d IH|d IH|d IH|d IH|d IH];
    intros acc; [split; reflexivity| | | | | | | | | |];
    cbn [NilEmpty.string_of_uint all_chars int_of_digits_from Nat.of_uint_acc];
    (split; [exact (proj1 (IH acc))|]);
    match goal with
    | |- _ = Z.of_nat (Nat.of_uint_acc _ ?a) => rewrite <- (proj2 (IH a))
    end;
    f_equal; rewrite Nat.tail_mul_spec;
    match goal with
    | |- context [digit_value ?c] =>
        let v := eval vm_compute in (digit_value c) in
        change (digit_value c) with v
    end;
    lia.
Qed.

Lemma digits_of_number (n : nat) :
  all_digits (NilZero.string_of_uint (Nat.to_uint n)) = true /\
  NilZero.string_of_uint (Nat.to_uint n) <> EmptyString /\
  int_of_digits (NilZero.string_of_uint (Nat.to_uint n)) = Z.of_nat n.
Proof.
  pose proof (DecimalNat.Unsigned.of_to n) as Hn.
  unfold Nat.of_uint in Hn.
  destruct (digits_of_uint (Nat.to_uint n) 0) as [Hall Hval].
  unfold NilZero.string_of_uint.
  destruct (Nat.to_uint n) as [|d|d|d|d|d|d|d|d|d|d] eqn:Hd;
    (split; [exact Hall|]; split; [discriminate|];
     unfold int_of_digits; rewrite <- Hn; exact Hval).
Qed.

Lemma append_empty (s : string) : (s ++ "")%string = s.
Proof. induction s as [|c s IH]; simpl; [reflexivity | now rewrite IH]. Qed.

Lemma ascii_only_app (a b : string) :
  ascii_only (a ++ b) = ascii_only a && ascii_only b.
Proof.
  unfold ascii_only.
  induction a as [|c a IH]; simpl; [reflexivity|].
  now rewrite IH, andb_assoc.
Qed.

Lemma digits_are_ascii (ds : string) : all_digits ds = true -> ascii_only ds = true.
Proof.
  unfold all_digits, ascii_only.
  induction ds as [|c ds IH]; simpl; [reflexivity|].
  intros H. apply andb_true_iff in H as [Hc Hds].
  rewrite (IH Hds), andb_true_r.
  unfold is_digit in Hc. apply andb_true_iff in Hc as [_ Hc].
  apply Nat.leb_le in Hc. apply Nat.ltb_lt. lia.
Qed.

(** X14. A column named by an ASCII prefix without digits, such as [F],
    followed by a year of at most 2^53 in decimal is a plain label and gets
    that year: reading the label gives back the number that was printed. *)
Theorem year_of_printed_label (prefix : string) (n : nat) :
  ascii_only prefix = true ->
  no_digit prefix = true ->
  (Z.of_nat n <= 2 ^ 53)%Z ->
  plain_label (prefix ++ NilZero.string_of_uint (Nat.to_uint n)) = true /\
  year_of_label (prefix ++ NilZero.string_of_uint (Nat.to_uint n))
  = of_int (Z.of_nat n).
Proof.
  intros Hascii Hprefix Hn.
  destruct (digits_of_number n) as (Hall & Hne & Hval).
  assert (Hrun : extract_digits (prefix ++ NilZero.string_of_uint (Nat.to_uint n))
                 = Some (NilZero.string_of_uint (Nat.to_uint n))).
  { apply extract_digits_run. exists prefix, EmptyString.
    rewrite append_empty. auto. }
  split.
  - unfold plain_label. rewrite Hrun, Hval, ascii_only_app, Hascii.
    rewrite (digits_are_ascii _ Hall). simpl.
    unfold exact_in_float64. now apply Z.leb_le.
  - unfold year_of_label. rewrite Hrun. simpl. now rewrite Hval.
Qed.

End Dashboard.

(** * The properties on concrete tables *)

(** One run on the sample table: the row without a temperature does not pass
    the temperature selection, so three rows are shown and three groups are
    aggregated. *)
Example scenario_filtered_rows :
  map (fun o => (Country (ids o), Year o, Temperature_Change o))
      (filtered_data Sample.choices (melted_data Sample.parse Sample.frame))
  = [ ("Albania"%string, Num 2020, Num 1);
      ("Algeria"%string, Num 2020, Num 2);
      ("Algeria"%string, Num 2021, Num 3) ].
Proof. reflexivity. Qed.

Example scenario_aggregated :
  aggregated_data Sample.parse
    (filtered_data Sample.choices (melted_data Sample.parse Sample.frame))
  = [ mk_agg "Africa" 2020 (Some (Num 2));
      mk_agg "Africa" 2021 (Some (Num 3));
      mk_agg "Europe" 2020 (Some (Num 1)) ].
Proof. reflexivity. Qed.

Example scenario_statistics :
  let col := map Temperature_Change
               (filtered_data Sample.choices (melted_data Sample.parse Sample.frame)) in
  series_mean col = Num 2 /\ series_median col = Num 2 /\
  series_max col = Num 3 /\ series_min col = Num 1 /\
  series_std Sample.sqrt col = Num 1.
Proof. repeat split. Qed.

(** The four selections in the reverse of the script's order. *)
Lemma filters_commute_witness :
  Permutation [ByTemperature; ByIndicator; ByCountry; ByDate] script_order /\
  apply_steps Sample.choices [ByTemperature; ByIndicator; ByCountry; ByDate]
              (melted_data Sample.parse Sample.frame)
  = filtered_data Sample.choices (melted_data Sample.parse Sample.frame).
Proof.
  assert (H : Permutation [ByTemperature; ByIndicator; ByCountry; ByDate] script_order)
    by exact (Permutation_sym (Permutation_rev script_order)).
  split; [exact H|].
  exact (filters_commute Sample.choices (melted_data Sample.parse Sample.frame) H).
Defined.

(** Two records and two year columns give four observations. *)
Lemma melted_row_count_witness :
  well_formed Sample.frame /\
  List.length (melted_data Sample.parse Sample.frame) = (2 * 2)%nat.
Proof.
  assert (H : well_formed Sample.frame) by (repeat constructor).
  split; [exact H | exact (melted_row_count Sample.parse H)].
Defined.

(** Albania's cell of 2021 is not a number: it is left out of the mean of any
    column it is put in. *)
Lemma non_numeric_cell_witness :
  missing_or_non_numeric Sample.parse (CStr "unknown") /\
  excluded_by series_mean (to_numeric_coerce Sample.parse (CStr "unknown")).
Proof.
  assert (H : missing_or_non_numeric Sample.parse (CStr "unknown"))
    by (left; reflexivity).
  split; [exact H|].
  exact (proj1 (proj2 (proj2
    (@non_numeric_cell_is_missing_and_excluded
       Sample.parse Sample.sqrt (CStr "unknown") H)))).
Defined.

(** Albania in 2021: the one row that reaches the slider has no temperature. *)
Lemma default_temperature_range_witness :
  all_missing (filtered_before_slider Sample.albania_2021
                 (melted_data Sample.parse Sample.frame)) /\
  initial_temperature_range (filtered_before_slider Sample.albania_2021
                               (melted_data Sample.parse Sample.frame))
  = (Num 0, Num 1).
Proof.
  assert (H : all_missing (filtered_before_slider Sample.albania_2021
                             (melted_data Sample.parse Sample.frame)))
    by (repeat constructor).
  split; [exact H | exact (proj1 (default_temperature_range H))].
Defined.

Lemma statistics_without_values_witness :
  all_missing (filtered_before_slider Sample.albania_2021
                 (melted_data Sample.parse Sample.frame)) /\
  statistical_measures Sample.sqrt Sample.repr
    (filtered_before_slider Sample.albania_2021
       (melted_data Sample.parse Sample.frame))
  = [ "Mean Temperature Change: nan";
      "Median Temperature Change: nan";
      "Standard Deviation: nan";
      "Max Temperature Change: nan";
      "Min Temperature Change: nan" ]%string.
Proof.
  assert (H : all_missing (filtered_before_slider Sample.albania_2021
                             (melted_data Sample.parse Sample.frame)))
    by (repeat constructor).
  split; [exact H|].
  exact (proj2 (statistics_without_values_print_nan Sample.sqrt Sample.repr H)).
Defined.

(** C7 does not hold on the script: with no row at all the mean is NaN, and the
    sidebar prints the five statistics as [nan], the NaN itself, with no
    separate undefined state. *)
Lemma statistics_of_empty_view_show_nan :
  series_mean (map Temperature_Change []) = NaN /\
  statistical_measures Sample.sqrt Sample.repr []
  = [ "Mean Temperature Change: nan";
      "Median Temperature Change: nan";
      "Standard Deviation: nan";
      "Max Temperature Change: nan";
      "Min Temperature Change: nan" ]%string.
Proof. split; reflexivity. Qed.

(** A bucket made of a missing float and of a text that is not a number. *)
Lemma custom_mean_without_values_witness :
  Forall (missing_or_non_numeric Sample.parse) [CFloat NaN; CStr "unknown"] /\
  no_value (custom_mean Sample.parse [CFloat NaN; CStr "unknown"]).
Proof.
  assert (H : Forall (missing_or_non_numeric Sample.parse)
                     [CFloat NaN; CStr "unknown"])
    by (repeat constructor).
  split; [exact H | exact (custom_mean_without_values H)].
Defined.

(** The table with the column labelled Note: its labels are plain, and the
    observation of that column is one of those described. *)
Lemma year_of_every_observation_witness :
  plain_labels Sample.frame_with_note /\
  exists label cells p,
    In (label, cells) (value_columns Sample.frame_with_note) /\
    plain_label label = true /\
    In p (combine (id_rows Sample.frame_with_note) cells) /\
    Sample.albania = fst p /\
    NaN = to_numeric_coerce Sample.parse (snd p) /\
    ((exists ds, first_digit_run label ds /\
                 (int_of_digits ds <= 2 ^ 53)%Z /\
                 NaN = of_int (int_of_digits ds)) \/
     (no_digit label = true /\ NaN = NaN)).
Proof.
  assert (H : plain_labels Sample.frame_with_note) by (repeat constructor).
  split; [exact H|].
  apply (proj1 (@year_of_every_observation Sample.parse Sample.frame_with_note
                  (mk_obs Sample.albania NaN NaN) H)).
  right; left; reflexivity.
Defined.

(** C5 does not hold on the script: the column labelled Note has no digit, and
    the melted data still has an observation for it, whose year is NaN. *)
Lemma digitless_column_is_emitted :
  extract_digits "Note" = None /\
  melted_data Sample.parse Sample.frame_with_note
  = [ mk_obs Sample.albania (Num 2020) (Num 1);
      mk_obs Sample.albania NaN NaN ].
Proof. split; reflexivity. Qed.

(** The failing input of C9: the same table and selections aggregated at the
    three levels give one and the same table, keyed by region, while the title
    of the chart follows the level. *)
Example aggregation_level_failing_input :
  forall l,
    shown_aggregated
      (dashboard Sample.parse Sample.sqrt Sample.repr
                 (set_level l Sample.choices) Sample.frame)
    = [ mk_agg "Africa" 2020 (Some (Num 2));
        mk_agg "Africa" 2021 (Some (Num 3));
        mk_agg "Europe" 2020 (Some (Num 1)) ] /\
    aggregated_title
      (dashboard Sample.parse Sample.sqrt Sample.repr
                 (set_level l Sample.choices) Sample.frame)
    = ("Aggregated Temperature Change Over Time by " ++ level_name l)%string.
Proof. intros l. split; reflexivity. Qed.

(** Andorra is not a key of the region mapping: its row of 2020 passes the
    filters and appears in no row of the aggregated table. *)
Example unmapped_country_example :
  let v := filtered_data
             (mk_controls (2020, 2020)%Z
                          ["Albania"; "Andorra, Principality of"]%string
                          "Temperature change" (Num 0, Num 3) LRegion)
             (melted_data Sample.parse Sample.frame_with_andorra) in
  map (fun o => Country (ids o)) v
  = ["Albania"; "Andorra, Principality of"]%string /\
  aggregated_data Sample.parse v = [ mk_agg "Europe" 2020 (Some (Num 1)) ].
Proof. split; reflexivity. Qed.

(** ** The further properties on concrete tables *)

(** A column with a missing entry between two values. *)
Lemma statistics_of_a_column_witness :
  dropna [Num 1; NaN; Num 3] <> [] /\
  exists lo hi med m,
    series_min [Num 1; NaN; Num 3] = Num lo /\
    series_max [Num 1; NaN; Num 3] = Num hi /\
    series_median [Num 1; NaN; Num 3] = Num med /\
    series_mean [Num 1; NaN; Num 3] = Num m /\
    In (Num lo) [Num 1; NaN; Num 3] /\ In (Num hi) [Num 1; NaN; Num 3] /\
    (forall t, In (Num t) [Num 1; NaN; Num 3] -> lo <= t <= hi) /\
    lo <= med <= hi.
Proof.
  assert (H : dropna [Num 1; NaN; Num 3] <> []) by discriminate.
  split; [exact H|].
  exact (statistics_of_a_column_with_values [Num 1; NaN; Num 3] H).
Defined.

(** A column whose only value is 2. *)
Lemma statistics_of_one_value_witness :
  dropna [NaN; Num 2] = [2] /\
  series_mean [NaN; Num 2] = Num 2 /\
  series_std Sample.sqrt [NaN; Num 2] = NaN.
Proof.
  assert (H : dropna [NaN; Num 2] = [2]) by reflexivity.
  pose proof (statistics_of_one_value Sample.sqrt Sample.repr [NaN; Num 2] 2 H)
    as (Hmean & _ & _ & _ & Hstd & _).
  split; [exact H | split; [exact Hmean | exact Hstd]].
Defined.

(** Algeria's row of 2021 is found in the group of Africa and 2021. *)
Lemma mapped_rows_are_aggregated_witness :
  exists row,
    In row (aggregated_data Sample.parse
              (filtered_data Sample.choices (melted_data Sample.parse Sample.frame))) /\
    Aggregated row = "Africa"%string /\ agg_Year row == 2021.
Proof.
  destruct (mapped_rows_are_aggregated Sample.parse
              (filtered_data Sample.choices (melted_data Sample.parse Sample.frame))
              (mk_obs Sample.algeria (Num 2021) (Num 3)) "Africa" 2021)
    as (row & Hin & Hg & Hy & _).
  - right; right; left; reflexivity.
  - reflexivity.
  - reflexivity.
  - exists row. split; [exact Hin | split; [exact Hg | exact Hy]].
Defined.

(** The row of Africa and 2021 in the aggregated table of the sample run. *)
Lemma aggregated_values_are_numbers_witness :
  In (mk_agg "Africa" 2021 (Some (Num 3)))
     (aggregated_data Sample.parse
        (filtered_data Sample.choices (melted_data Sample.parse Sample.frame))) /\
  exists m, Some (Num 3) = Some (Num m).
Proof.
  assert (H : In (mk_agg "Africa" 2021 (Some (Num 3)))
                 (aggregated_data Sample.parse
                    (filtered_data Sample.choices
                       (melted_data Sample.parse Sample.frame))))
    by (right; left; reflexivity).
  split; [exact H|].
  exact (proj1 (aggregated_values_are_numbers Sample.parse Sample.choices
                  (melted_data Sample.parse Sample.frame) _ H)).
Defined.


(** The sample table spans 2020 to 2021. *)
Lemma default_date_range_witness :
  default_date_range (melted_data Sample.parse Sample.frame) = Some (2020, 2021)%Z /\
  filter_date (2020, 2021)%Z (melted_data Sample.parse Sample.frame)
  = filter (fun o => negb (isna (Year o))) (melted_data Sample.parse Sample.frame).
Proof.
  assert (H : default_date_range (melted_data Sample.parse Sample.frame)
              = Some (2020, 2021)%Z) by reflexivity.
  split; [exact H|].
  exact (proj2 (proj2 (proj2 (proj2
    (default_date_range_keeps_dated_rows Sample.parse Sample.frame 2020 2021 H))))).
Defined.

(** The label of the data set's column for 1961. *)
Lemma year_of_printed_label_witness :
  ascii_only "F" = true /\ no_digit "F" = true /\ (Z.of_nat 1961 <= 2 ^ 53)%Z /\
  plain_label "F1961" = true /\ year_of_label "F1961" = of_int 1961.
Proof.
  assert (Ha : ascii_only "F" = true) by reflexivity.
  assert (Hd : no_digit "F" = true) by reflexivity.
  assert (Hn : (Z.of_nat 1961 <= 2 ^ 53)%Z) by (vm_compute; discriminate).
  split; [exact Ha|]. split; [exact Hd|]. split; [exact Hn|].
  exact (year_of_printed_label "F" 1961 Ha Hd Hn).
Defined.

(** With the digitless column in second place the default range is found and
    the row of that column is dropped by the date selection; with no row at
    all, or with that column first, line 32 raises. *)
Example default_date_range_examples :
  default_date_range (melted_data Sample.parse Sample.frame_with_note)
  = Some (2020, 2020)%Z /\
  List.length (filter_date (2020, 2020)%Z
                 (melted_data Sample.parse Sample.frame_with_note)) = 1%nat /\
  default_date_range (melted_data Sample.parse (mk_frame [] [("F2020"%string, [])]))
  = None /\
  default_date_range
    (melted_data Sample.parse
       (mk_frame [Sample.albania]
                 [("Note"%string, [CStr "estimated"]);
                  ("F2020"%string, [CFloat (Num 1)])]))
  = None.
Proof. repeat split. Qed.
